(** * Grid search, hold-one-session-out validation and small-session
      reallocation of the vocal-cue interpreter notebooks

    The development embeds the pure parts of three notebooks:

    - [Hyperparametertuning.ipynb]: the log-spaced [range] generator and
      the four hand-written grid-search functions;
    - the logistic-regression notebook: the missing-class handling of the
      hold-one-session-out loop;
    - the "train-test by small sessions" notebook: [get_session] and the
      reassignment of [is_test].

    Conventions.  Python floats are idealised as real numbers ([R]): the
    statements about values hold up to rounding in the notebooks.  Python
    exceptions are values of [exn], and a computation that may raise has
    type [result A].  The training routines ([crossvalid_nobar],
    [crossvalid_AdamW_nobar], the model constructors, scikit-learn's
    estimator) are not part of the notebooks; they are parameters of the
    sections that use them. *)

From Stdlib Require Import Reals Lra Lia ZArith Ascii String List.
From stdpp Require Import base list strings gmap sorting.

(** ** Exceptions *)

Inductive exn : Set := ValueError | IndexError | KeyError.

Inductive result (A : Type) : Type :=
| Ok (a : A)
| Raise (e : exn).
Arguments Ok {A} a.
Arguments Raise {A} e.

#[global] Instance result_ret : MRet result := fun A a => Ok a.
#[global] Instance result_bind : MBind result := fun A B f c =>
  match c with
  | Ok a => f a
  | Raise e => Raise e
  end.

(** [t[i]] on a tuple or a list: [IndexError] out of range. *)
Definition getitem {A} (t : list A) (i : nat) : result A :=
  match t !! i with
  | Some x => Ok x
  | None => Raise IndexError
  end.

(** Monadic left fold: a [for] loop whose body may raise. *)
Fixpoint for_each {A S} (body : S -> A -> result S) (xs : list A) (s : S)
  : result S :=
  match xs with
  | [] => Ok s
  | x :: xs' => s' ← body s x; for_each body xs' s'
  end.

(** [enumerate(xs)], counting from [start]. *)
Fixpoint enumerate_from {A} (start : nat) (xs : list A) : list (nat * A) :=
  match xs with
  | [] => []
  | x :: xs' => (start, x) :: enumerate_from (S start) xs'
  end.
Definition enumerate {A} (xs : list A) : list (nat * A) := enumerate_from 0 xs.

(** ** The log-spaced range generator *)

Module LogRange.
Open Scope R_scope.

(** [np.log10] and [10 ** y] on reals.  [log10] is meant for positive
    arguments only: numpy gives [-inf] at zero and NaN below, which have
    no real counterpart. *)
Definition log10 (x : R) : R := ln x / ln 10.
Definition pow10 (y : R) : R := Rpower 10 y.

(** [y[-1] = stop]. *)
Definition set_last (y : list R) (stop : R) : list R :=
  <[Nat.pred (length y) := stop]> y.

(** [np.linspace(start, stop, num, dtype=float)] with the default
    [endpoint=True]: a negative [num] is a [ValueError]; otherwise
    [arange(0, num) * step + start] with [step = (stop - start) / (num - 1)],
    the last sample being overwritten by [stop] when [num > 1].  For
    [num = 1] the divisor is [0] and numpy computes [arange(0, 1) * delta
    + start].  (When the step is zero numpy divides before it multiplies,
    which is the same real number.) *)
Definition linspace (start stop : R) (num : Z) : result (list R) :=
  if (num <? 0)%Z then Raise ValueError
  else
    let div := (num - 1)%Z in
    let delta := stop - start in
    let y := map INR (seq 0 (Z.to_nat num)) in
    let y := if (0 <? div)%Z
             then map (fun v => v * (delta / IZR div) + start) y
             else map (fun v => v * delta + start) y in
    Ok (if (1 <? num)%Z then set_last y stop else y).

(** A hyperparameter specification: a [dict] from dimension names to
    [(start, stop, num)], in insertion order. *)
Definition dim_spec : Type := R * R * Z.
Definition hp_spec : Type := list (string * dim_spec).

Definition keys (hps : hp_spec) : list string := map fst hps.

(** [hps[hp]] *)
Fixpoint lookup_key (hps : hp_spec) (hp : string) : result dim_spec :=
  match hps with
  | [] => Raise KeyError
  | (k, v) :: hps' => if decide (k = hp) then Ok v else lookup_key hps' hp
  end.

(** [def range(hps, hp)] *)
Definition range (hps : hp_spec) (hp : string) : result (list R) :=
  d ← lookup_key hps hp;
  let '(lo, hi, num) := d in
  log_range ← linspace (log10 lo) (log10 hi) num;
  Ok (map pow10 log_range).



End LogRange.

(** ** The grid-search functions *)

Module GridSearch.
Import LogRange.
Open Scope R_scope.

(** [itertools.product]: the last range advances fastest. *)
Fixpoint product {A} (ls : list (list A)) : list (list A) :=
  match ls with
  | [] => [[]]
  | l :: ls' => flat_map (fun x => map (cons x) (product ls')) l
  end.

(** The per-metric frame returned by the cross-validation routine: one
    row per epoch, one validation column per fold. *)
Record epoch_row : Type := {
  split_0_val : R;
  split_1_val : R;
  split_2_val : R
}.
Definition cv_frame : Type := list epoch_row.

(** [df[column]] *)
Definition col (column : epoch_row -> R) (df : cv_frame) : list R :=
  map column df.

Record cv_output : Type := {
  unweighted_f1 : cv_frame;
  logloss : cv_frame
}.

(** The routines of [scripts/] the notebook imports.  Training is
    randomised, so the cross-validation routines also take the number of
    the call: two calls with equal hyperparameters may return different
    curves. *)
Class Training : Type := {
  model : Type;
  dataset : Type;
  two_layer_classifier_do : R -> model;
  three_layer_classifier_do : R -> model;
  crossvalid_nobar : nat -> model -> dataset -> R -> R -> R -> cv_output;
  crossvalid_AdamW_nobar : nat -> model -> dataset -> R -> R -> cv_output
}.

(** Series arithmetic.  The columns of one frame share its index, so [+]
    is position-wise. *)
Definition series_add (a b : list R) : list R := zip_with Rplus a b.

(** [df['split_0_val'] + df['split_1_val'] + df['split_2_val']] *)
Definition fold_sum (df : cv_frame) : list R :=
  series_add (series_add (col split_0_val df) (col split_1_val df))
             (col split_2_val df).

(** [Series.max()] and [Series.min()].  On an empty series pandas gives
    NaN, which has no real counterpart; [0] stands for it here, and the
    statement that follows in the source ([argmax] / [argmin]) raises on
    that input. *)
Definition series_max (s : list R) : R :=
  match s with
  | [] => 0
  | x :: s' => fold_left Rmax s' x
  end.
Definition series_min (s : list R) : R :=
  match s with
  | [] => 0
  | x :: s' => fold_left Rmin s' x
  end.

(** [Series.argmax()] and [Series.argmin()]: the position of the first
    occurrence of the extremum; [ValueError] on an empty series. *)
Fixpoint argmax_from (best : R) (best_i i : nat) (s : list R) : nat :=
  match s with
  | [] => best_i
  | x :: s' => if Rlt_dec best x then argmax_from x i (S i) s'
               else argmax_from best best_i (S i) s'
  end.
Definition argmax (s : list R) : result Z :=
  match s with
  | [] => Raise ValueError
  | x :: s' => Ok (Z.of_nat (argmax_from x 0 1 s'))
  end.

Fixpoint argmin_from (best : R) (best_i i : nat) (s : list R) : nat :=
  match s with
  | [] => best_i
  | x :: s' => if Rlt_dec x best then argmin_from x i (S i) s'
               else argmin_from best best_i (S i) s'
  end.
Definition argmin (s : list R) : result Z :=
  match s with
  | [] => Raise ValueError
  | x :: s' => Ok (Z.of_nat (argmin_from x 0 1 s'))
  end.

(** One row of the [selector] frame. *)
Record row : Type := {
  best_f1_val : R;
  f1_val_stop : Z;
  best_logloss_val : R;
  logloss_val_stop : Z
}.

Definition zero_row : row :=
  {| best_f1_val := 0; f1_val_stop := 0;
     best_logloss_val := 0; logloss_val_stop := 0 |}.

Definition set_best_f1_val (v : R) (r : row) : row :=
  {| best_f1_val := v; f1_val_stop := f1_val_stop r;
     best_logloss_val := best_logloss_val r;
     logloss_val_stop := logloss_val_stop r |}.
Definition set_f1_val_stop (v : Z) (r : row) : row :=
  {| best_f1_val := best_f1_val r; f1_val_stop := v;
     best_logloss_val := best_logloss_val r;
     logloss_val_stop := logloss_val_stop r |}.
Definition set_best_logloss_val (v : R) (r : row) : row :=
  {| best_f1_val := best_f1_val r; f1_val_stop := f1_val_stop r;
     best_logloss_val := v; logloss_val_stop := logloss_val_stop r |}.
Definition set_logloss_val_stop (v : Z) (r : row) : row :=
  {| best_f1_val := best_f1_val r; f1_val_stop := f1_val_stop r;
     best_logloss_val := best_logloss_val r; logloss_val_stop := v |}.

(** [selector.loc[i, column] = v], for a label [i] of the frame. *)
Definition loc_set (i : nat) (setter : row -> row) (selector : list row)
  : list row := alter setter i selector.

(** The returned frame: the grid is its index. *)
Definition table : Type := list (list R * row).

(** [ranges_list = [range(hps, hp) for hp in hps.keys()]]
    [grid]: the list of the [it.product] of [ranges_list]. *)
Definition make_grid (hps : hp_spec) : result (list (list R)) :=
  ranges_list ← mapM (range hps) (keys hps);
  Ok (product ranges_list).

(** The four zero-filled columns of length [len(grid)]. *)
Definition new_selector (grid : list (list R)) : list row :=
  replicate (length grid) zero_row.

Section Searches.
Context `{Training}.

(** [def twolayergridsearch(hps, df=P05_t)] *)
Definition twolayergridsearch (hps : hp_spec) (df : dataset) : result table :=
  grid ← make_grid hps;
  let selector := new_selector grid in
  selector ← for_each (fun selector '(i, pt) =>
      dr ← getitem pt 0;
      let model_pt := two_layer_classifier_do dr in
      lr ← getitem pt 1;
      m ← getitem pt 2;
      wd ← getitem pt 3;
      let output_pt := crossvalid_nobar i model_pt df lr m wd in
      let df_f1 := unweighted_f1 output_pt in
      let df_logloss := logloss output_pt in
      let selector :=
        loc_set i (set_best_f1_val (series_max (fold_sum df_f1) / 3))
                selector in
      stop ← argmax (fold_sum df_f1);
      let selector := loc_set i (set_f1_val_stop stop) selector in
      let selector :=
        loc_set i (set_best_logloss_val (series_min (fold_sum df_logloss) / 3))
                selector in
      stop ← argmin (fold_sum df_logloss);
      let selector := loc_set i (set_logloss_val_stop stop) selector in
      Ok selector) (enumerate grid) selector;
  Ok (zip grid selector).

(** [def threelayergridsearch(hps, df=P05_t)] *)
Definition threelayergridsearch (hps : hp_spec) (df : dataset) : result table :=
  grid ← make_grid hps;
  let selector := new_selector grid in
  selector ← for_each (fun selector '(i, pt) =>
      dr ← getitem pt 0;
      let model_pt := three_layer_classifier_do dr in
      lr ← getitem pt 1;
      m ← getitem pt 2;
      wd ← getitem pt 3;
      let output_pt := crossvalid_nobar i model_pt df lr m wd in
      let df_f1 := unweighted_f1 output_pt in
      let df_logloss := logloss output_pt in
      let selector :=
        loc_set i (set_best_f1_val (series_max (fold_sum df_f1) / 3))
                selector in
      stop ← argmax (fold_sum df_f1);
      let selector := loc_set i (set_f1_val_stop stop) selector in
      let selector :=
        loc_set i (set_best_logloss_val (series_min (fold_sum df_logloss) / 3))
                selector in
      stop ← argmin (fold_sum df_logloss);
      let selector := loc_set i (set_logloss_val_stop stop) selector in
      Ok selector) (enumerate grid) selector;
  Ok (zip grid selector).

(** [def twolayergridsearch_AdamW(hps, df=P05_t)]: the two log-loss
    statements assign to ['best_f1_val'] and ['f1_val_stop'], as in the
    source. *)
Definition twolayergridsearch_AdamW (hps : hp_spec) (df : dataset)
  : result table :=
  grid ← make_grid hps;
  let selector := new_selector grid in
  selector ← for_each (fun selector '(i, pt) =>
      dr ← getitem pt 0;
      let model_pt := two_layer_classifier_do dr in
      lr ← getitem pt 1;
      wd ← getitem pt 2;
      let output_pt := crossvalid_AdamW_nobar i model_pt df lr wd in
      let df_f1 := unweighted_f1 output_pt in
      let df_logloss := logloss output_pt in
      let selector :=
        loc_set i (set_best_f1_val (series_max (fold_sum df_f1) / 3))
                selector in
      stop ← argmax (fold_sum df_f1);
      let selector := loc_set i (set_f1_val_stop stop) selector in
      let selector :=
        loc_set i (set_best_f1_val (series_min (fold_sum df_logloss) / 3))
                selector in
      stop ← argmin (fold_sum df_logloss);
      let selector := loc_set i (set_f1_val_stop stop) selector in
      Ok selector) (enumerate grid) selector;
  Ok (zip grid selector).

(** [def threelayergridsearch_AdamW(hps, df=P05_t)] *)
Definition threelayergridsearch_AdamW (hps : hp_spec) (df : dataset)
  : result table :=
  grid ← make_grid hps;
  let selector := new_selector grid in
  selector ← for_each (fun selector '(i, pt) =>
      dr ← getitem pt 0;
      let model_pt := three_layer_classifier_do dr in
      lr ← getitem pt 1;
      wd ← getitem pt 2;
      let output_pt := crossvalid_AdamW_nobar i model_pt df lr wd in
      let df_f1 := unweighted_f1 output_pt in
      let df_logloss := logloss output_pt in
      let selector :=
        loc_set i (set_best_f1_val (series_max (fold_sum df_f1) / 3))
                selector in
      stop ← argmax (fold_sum df_f1);
      let selector := loc_set i (set_f1_val_stop stop) selector in
      let selector :=
        loc_set i (set_best_f1_val (series_min (fold_sum df_logloss) / 3))
                selector in
      stop ← argmin (fold_sum df_logloss);
      let selector := loc_set i (set_f1_val_stop stop) selector in
      Ok selector) (enumerate grid) selector;
  Ok (zip grid selector).

(** The searches that train with SGD, each with its model constructor,
    and the four searches of the notebook. *)
Definition sgd_searches
  : list ((hp_spec -> dataset -> result table) * (R -> model)) :=
  [ (twolayergridsearch, two_layer_classifier_do);
    (threelayergridsearch, three_layer_classifier_do) ].
Definition searches : list (hp_spec -> dataset -> result table) :=
  [ twolayergridsearch; threelayergridsearch;
    twolayergridsearch_AdamW; threelayergridsearch_AdamW ].

End Searches.

(** *** Notions used to state the properties of the search *)

(** The per-dimension counts of a specification and their product. *)
Definition counts (hps : hp_spec) : list Z := map (fun kv => kv.2.2) hps.
Definition grid_size (hps : hp_spec) : Z := foldr Z.mul 1%Z (counts hps).

(** The fold average of a metric, epoch by epoch. *)
Definition fold_mean (df : cv_frame) : list R :=
  map (fun e => (split_0_val e + split_1_val e + split_2_val e) / 3) df.

(** [v] is the largest (smallest) value of a curve. *)
Definition is_maximum (v : R) (curve : list R) : Prop :=
  (exists e : nat, curve !! e = Some v) /\
  forall (e : nat) (x : R), curve !! e = Some x -> x <= v.
Definition is_minimum (v : R) (curve : list R) : Prop :=
  (exists e : nat, curve !! e = Some v) /\
  forall (e : nat) (x : R), curve !! e = Some x -> v <= x.

(** [e] is the first epoch at which a curve is largest (smallest). *)
Definition first_argmax (curve : list R) (e : nat) : Prop :=
  exists v : R, curve !! e = Some v /\
    (forall (j : nat) (x : R), curve !! j = Some x -> x <= v) /\
    (forall (j : nat) (x : R), (j < e)%nat -> curve !! j = Some x -> x < v).
Definition first_argmin (curve : list R) (e : nat) : Prop :=
  exists v : R, curve !! e = Some v /\
    (forall (j : nat) (x : R), curve !! j = Some x -> v <= x) /\
    (forall (j : nat) (x : R), (j < e)%nat -> curve !! j = Some x -> v < x).

(** The cross-validation output the searches obtain for the [i]-th grid
    point [pt]: [pt[0]] builds the model, the other coordinates are passed
    on by position. *)
Definition sgd_output `{Training} (mk : R -> model) (df : dataset)
    (i : nat) (pt : list R) : option cv_output :=
  match pt with
  | dr :: lr :: m :: wd :: _ => Some (crossvalid_nobar i (mk dr) df lr m wd)
  | _ => None
  end.
Definition adamw_output `{Training} (mk : R -> model) (df : dataset)
    (i : nat) (pt : list R) : option cv_output :=
  match pt with
  | dr :: lr :: wd :: _ => Some (crossvalid_AdamW_nobar i (mk dr) df lr wd)
  | _ => None
  end.

(** What one iteration of a search leaves in its row [r0] of the frame.
    The SGD searches fill the four columns; the AdamW searches assign to
    the two F1 columns twice and leave the log-loss columns alone. *)
Definition sgd_row `{Training} (mk : R -> model) (df : dataset)
    (i : nat) (pt : list R) (r0 r : row) : Prop :=
  exists (out : cv_output) (stop_f1 stop_ll : Z),
    sgd_output mk df i pt = Some out /\
    argmax (fold_sum (unweighted_f1 out)) = Ok stop_f1 /\
    argmin (fold_sum (logloss out)) = Ok stop_ll /\
    r = {| best_f1_val := series_max (fold_sum (unweighted_f1 out)) / 3;
           f1_val_stop := stop_f1;
           best_logloss_val := series_min (fold_sum (logloss out)) / 3;
           logloss_val_stop := stop_ll |}.
Definition adamw_row `{Training} (mk : R -> model) (df : dataset)
    (i : nat) (pt : list R) (r0 r : row) : Prop :=
  exists (out : cv_output) (stop_f1 stop_ll : Z),
    adamw_output mk df i pt = Some out /\
    argmax (fold_sum (unweighted_f1 out)) = Ok stop_f1 /\
    argmin (fold_sum (logloss out)) = Ok stop_ll /\
    r = {| best_f1_val := series_min (fold_sum (logloss out)) / 3;
           f1_val_stop := stop_ll;
           best_logloss_val := best_logloss_val r0;
           logloss_val_stop := logloss_val_stop r0 |}.

(** A training stub for the examples: five epochs, the same curves at
    every grid point.  The F1 sums are [1.5; 2.4; 2.4; 1.8; 1.5] and the
    log-loss sums [3; 1.5; 1.2; 1.2; 2.1]. *)
Definition demo_output : cv_output :=
  {| unweighted_f1 :=
       [ {| split_0_val := 0.5; split_1_val := 0.5; split_2_val := 0.5 |};
         {| split_0_val := 0.7; split_1_val := 0.8; split_2_val := 0.9 |};
         {| split_0_val := 0.9; split_1_val := 0.8; split_2_val := 0.7 |};
         {| split_0_val := 0.6; split_1_val := 0.6; split_2_val := 0.6 |};
         {| split_0_val := 0.5; split_1_val := 0.5; split_2_val := 0.5 |} ];
     logloss :=
       [ {| split_0_val := 1; split_1_val := 1; split_2_val := 1 |};
         {| split_0_val := 0.5; split_1_val := 0.5; split_2_val := 0.5 |};
         {| split_0_val := 0.3; split_1_val := 0.4; split_2_val := 0.5 |};
         {| split_0_val := 0.5; split_1_val := 0.4; split_2_val := 0.3 |};
         {| split_0_val := 0.7; split_1_val := 0.7; split_2_val := 0.7 |} ] |}.

Definition demo_training : Training :=
  {| model := R; dataset := unit;
     two_layer_classifier_do := fun dr => dr;
     three_layer_classifier_do := fun dr => dr;
     crossvalid_nobar := fun _ _ _ _ _ _ => demo_output;
     crossvalid_AdamW_nobar := fun _ _ _ _ _ => demo_output |}.

(** Specifications of the notebook and of the end-to-end scenario. *)
Definition hps3 : hp_spec :=
  [ ("dr"%string, (1e-1, 5e-1, 5%Z)); ("lr"%string, (1e-5, 1e-2, 6%Z));
    ("m"%string, (9e-1, 10e-1, 1%Z)); ("wd"%string, (1e-5, 1e-3, 3%Z)) ].
Definition hps2_AdamW : hp_spec :=
  [ ("dr"%string, (5e-2, 5e-1, 5%Z)); ("lr"%string, (1e-5, 1e-3, 6%Z));
    ("wd"%string, (1e-3, 1e-1, 2%Z)) ].

Definition hps_point : hp_spec :=
  [ ("dr"%string, (0.1, 0.1, 1%Z)); ("lr"%string, (1e-3, 1e-3, 1%Z));
    ("m"%string, (0.9, 0.9, 1%Z)); ("wd"%string, (1e-3, 1e-3, 1%Z)) ].

(** The rows the stub leads to: the one a search should record, and the
    one the AdamW searches leave. *)
Definition demo_row : row :=
  {| best_f1_val := 0.8; f1_val_stop := 1;
     best_logloss_val := 0.4; logloss_val_stop := 2 |}.
Definition demo_AdamW_row : row :=
  {| best_f1_val := 0.4; f1_val_stop := 2;
     best_logloss_val := 0; logloss_val_stop := 0 |}.

(** The searches that train with AdamW, each with its model constructor,
    and the number of coordinates each search reads from a grid point
    ([pt[0]] to [pt[3]], or [pt[0]] to [pt[2]]). *)
Definition adamw_searches `{Training}
  : list ((hp_spec -> dataset -> result table) * (R -> model)) :=
  [ (twolayergridsearch_AdamW, two_layer_classifier_do);
    (threelayergridsearch_AdamW, three_layer_classifier_do) ].
Definition coordinates_read `{Training}
  : list ((hp_spec -> dataset -> result table) * nat) :=
  [ (twolayergridsearch, 4%nat); (threelayergridsearch, 4%nat);
    (twolayergridsearch_AdamW, 3%nat); (threelayergridsearch_AdamW, 3%nat) ].

End GridSearch.

(** ** Hold-one-session-out validation *)

Module HoldOneSessionOut.
Open Scope R_scope.


(** [a[mask]] for a boolean mask. *)
Fixpoint select {A} (mask : list bool) (a : list A) : list A :=
  match mask, a with
  | b :: mask', x :: a' => if b then x :: select mask' a' else select mask' a'
  | _, _ => []
  end.

(** [mask.sum()] *)
Definition mask_sum (mask : list bool) : nat :=
  length (filter (fun b => b = true) mask).

(** [list.index(n)]: the first position of [n]; [ValueError] if absent. *)
Fixpoint index_of (n : nat) (l : list nat) : result nat :=
  match l with
  | [] => Raise ValueError
  | x :: l' => if decide (x = n) then Ok 0%nat
               else i ← index_of n l'; Ok (S i)
  end.

(** [pred[:, j]] on a two-dimensional array held as a list of rows. *)
Definition column (pred : list (list R)) (j : nat) : result (list R) :=
  mapM (fun r => getitem r j) pred.




(** [session_tr == session] *)
Definition session_mask (session_tr : list string) (session : string)
  : list bool := map (fun s => bool_decide (s = session)) session_tr.

Section Fold.
Context `{Classifier}.



End Fold.

(** [np.unique(a)] on an array of strings: the distinct values, sorted
    (strings compare character by character, by code). *)
Definition str_le (x y : string) : Prop := String.leb x y = true.
#[global] Instance str_le_dec (x y : string) : Decision (str_le x y) :=
  decide (String.leb x y = true).





(** [pred_prob.argmax(1)]: for each row the first position of its
    largest entry; [ValueError] on rows without entries. *)
Definition argmax_rows (m : list (list R)) : result (list Z) :=
  mapM GridSearch.argmax m.

Section Loop.
Context `{Classifier}.


End Loop.


End HoldOneSessionOut.

(** ** Train-test by small sessions *)

Module SmallSessions.

(** [str.split(sep)] for a one-character separator. *)
Fixpoint split (sep : ascii) (s : string) : list string :=
  match s with
  | EmptyString => [EmptyString]
  | String c s' =>
      if decide (c = sep) then EmptyString :: split sep s'
      else match split sep s' with
           | w :: ws => String c w :: ws
           | [] => [String c EmptyString]
           end
  end.

(** [s[:-n]] for [n > 0]: empty when [s] has at most [n] characters. *)
Definition drop_last (n : nat) (s : string) : string :=
  substring 0 (String.length s - n) s.

(** [def get_session(filename)]: [filename.split('-')[0][:-3]] *)
Definition get_session (filename : string) : string :=
  drop_last 3 (hd EmptyString (split "-"%char filename)).

(** [sep.join(pieces)], the inverse the round trip of [split] is stated
    with. *)
Fixpoint join (sep : ascii) (pieces : list string) : string :=
  match pieces with
  | [] => EmptyString
  | w :: ws =>
      match ws with
      | [] => w
      | _ :: _ => append w (String sep (join sep ws))
      end
  end.

(** The number of occurrences of a character in a string. *)
Fixpoint occurrences (c : ascii) (s : string) : nat :=
  match s with
  | EmptyString => 0
  | String c' s' => (if decide (c' = c) then 1 else 0) + occurrences c s'
  end.

(** A row of [directory_w_train_test.csv]; [C] holds the columns the
    notebook does not touch. *)
Record csv_row (C : Type) : Type := {
  csv_Filename : string;
  csv_is_test : Z;
  csv_other : C
}.
Arguments csv_Filename {C} _.
Arguments csv_is_test {C} _.
Arguments csv_other {C} _.

(** A row of [old_df] once the [Session] column is there. *)
Record df_row (C : Type) : Type := {
  Filename : string;
  is_test : Z;
  other : C;
  Session : string
}.
Arguments Filename {C} _.
Arguments is_test {C} _.
Arguments other {C} _.
Arguments Session {C} _.

Section Frame.
Context {C : Type}.

(** [old_df['Session'] = old_df.Filename.apply(get_session)] *)
Definition add_session (r : csv_row C) : df_row C :=
  {| Filename := csv_Filename r; is_test := csv_is_test r;
     other := csv_other r; Session := get_session (csv_Filename r) |}.

(** [Series.value_counts()]: the number of occurrences of each value
    that occurs. *)
Definition value_counts (l : list string) : gmap string nat :=
  foldr (fun s m => <[s := S (default 0%nat (m !! s))]> m) ∅ l.

(** [old_df.loc[old_df.is_test==0].Session.value_counts()] *)
Definition session_counts (old_df : list (df_row C)) : gmap string nat :=
  value_counts
    (map Session (filter (fun r => is_test r = 0%Z) old_df)).

(** [session_counts[session_counts < 15].index] *)
Definition small_sessions (counts : gmap string nat) : gset string :=
  dom (filter (fun kv => (kv.2 < 15)%nat) counts).

Definition set_is_test (v : Z) (r : df_row C) : df_row C :=
  {| Filename := Filename r; is_test := v;
     other := other r; Session := Session r |}.

(** [new_df = old_df.copy()]
    [new_df.loc[new_df.Session.isin(...), 'is_test'] = 1] *)
Definition reassign (old_df : list (df_row C)) : list (df_row C) :=
  let small := small_sessions (session_counts old_df) in
  map (fun r =>
         if bool_decide (Session r ∈ small) then set_is_test 1 r else r)
      old_df.

(** The notebook from [pd.read_csv] to [new_df]. *)
Definition small_session_split (csv : list (csv_row C)) : list (df_row C) :=
  reassign (map add_session csv).

(** The number of rows of session [s] among the non-test rows. *)
Definition nontest_count (old_df : list (df_row C)) (s : string) : nat :=
  length (filter (fun r => is_test r = 0%Z /\ Session r = s) old_df).

End Frame.

End SmallSessions.

(** ** Metrics on probabilities *)

Module Metrics.

Section ToProb.
Context {Y W M : Type}.

(** [def to_prob(metric)]: the metric is applied to the labels
    [y_pred.argmax(1)] instead of the probabilities [y_pred]. *)
Definition to_prob (metric : Y -> list Z -> option W -> result M)
    (y_actual : Y) (y_pred : list (list R)) (sample_weight : option W)
  : result M :=
  labels ← HoldOneSessionOut.argmax_rows y_pred;
  metric y_actual labels sample_weight.

End ToProb.

End Metrics.

(** ** Feature export *)

Module HuBERTExport.
Import SmallSessions.

(** A row of [data_files], and a row of [training_files] once it has its
    [session] column. *)
Record file_row : Type := {
  file_Filename : string;
  file_Label : string;
  file_is_test : Z
}.
Record training_row : Type := {
  row_of : file_row;
  session : string
}.

(** [label_counts = data_files.Label.value_counts()] *)
Definition label_counts (data_files : list file_row) : gmap string nat :=
  value_counts (map file_Label data_files).

(** [label_counts[label_counts >= 30].index] *)
Definition frequent_labels (counts : gmap string nat) : gset string :=
  dom (filter (fun kv => (30 <= kv.2)%nat) counts).

(** [training_files]: the rows with a frequent label that are not test
    rows, with [session] computed from the file name by
    [name.split("-")[0][:-3]]. *)
Definition training_files (data_files : list file_row) : list training_row :=
  let frequent := frequent_labels (label_counts data_files) in
  map (fun r =>
         {| row_of := r;
            session := drop_last 3 (hd EmptyString
                                       (split "-" (file_Filename r))) |})
      (filter (fun r => file_Label r ∈ frequent /\ file_is_test r = 0%Z)
              data_files).

(** The number of rows of [data_files] with a given label. *)
Definition label_count (data_files : list file_row) (l : string) : nat :=
  length (filter (fun r => file_Label r = l) data_files).



End HuBERTExport.

(** * Properties *)

(** ** Facts about the exception monad and loops *)

Lemma bind_Ok {A B} (c : result A) (f : A -> result B) (b : B) :
  (c ≫= f) = Ok b -> exists a, c = Ok a /\ f a = Ok b.
Proof. destruct c as [a|e]; simpl; [eauto | discriminate]. Qed.

Lemma getitem_Ok {A} (t : list A) (i : nat) (x : A) :
  getitem t i = Ok x <-> t !! i = Some x.
Proof.
  unfold getitem. destruct (t !! i); split; intros E; inversion E; reflexivity.
Qed.

Lemma mapM_Ok {A B} (f : A -> result B) (l : list A) (l' : list B) :
  mapM f l = Ok l' <-> Forall2 (fun x y => f x = Ok y) l l'.
Proof.
  revert l'. induction l as [|x l IH]; intros l'; simpl.
  - split.
    + intros E. inversion E. constructor.
    + intros E. inversion E. reflexivity.
  - split.
    + intros E. apply bind_Ok in E as (y & Ey & E).
      apply bind_Ok in E as (k & Ek & E). inversion E; subst.
      constructor; [assumption | apply IH, Ek].
    + intros E. inversion E as [|? y ? k Ey Ek]; subst.
      apply IH in Ek. rewrite Ey. simpl. rewrite Ek. reflexivity.
Qed.


(** ** The definitions on small inputs *)

Example product_order :
  GridSearch.product [[1; 2; 3]; [4; 5]]%nat
  = [[1; 4]; [1; 5]; [2; 4]; [2; 5]; [3; 4]; [3; 5]]%nat.
Proof. reflexivity. Qed.

Example product_of_nothing : GridSearch.product (A := nat) [] = [[]].
Proof. reflexivity. Qed.

Example enumerate_pairs :
  enumerate ["a"; "b"]%string = [(0%nat, "a"%string); (1%nat, "b"%string)].
Proof. reflexivity. Qed.

Example linspace_negative_count :
  LogRange.linspace 0%R 1%R (-1)%Z = Raise ValueError.
Proof. reflexivity. Qed.

Example make_grid_negative_count :
  GridSearch.make_grid [("dr"%string, (1e-1, 5e-1, (-1)%Z)%R)]
  = Raise ValueError.
Proof. reflexivity. Qed.

Example get_session_clip :
  SmallSessions.get_session "210927_2145_03-delighted.wav"
  = "210927_2145"%string.
Proof. reflexivity. Qed.

Example get_session_no_dash : SmallSessions.get_session "abcd" = "a"%string.
Proof. reflexivity. Qed.

Example get_session_short : SmallSessions.get_session "ab-c" = ""%string.
Proof. reflexivity. Qed.

Example split_trailing :
  SmallSessions.split "-" "a-b-" = ["a"; "b"; ""]%string.
Proof. reflexivity. Qed.

Example index_of_first : HoldOneSessionOut.index_of 2 [0; 2; 2] = Ok 1%nat.
Proof. reflexivity. Qed.

Example index_of_absent :
  HoldOneSessionOut.index_of 3 [0; 2] = Raise ValueError.
Proof. reflexivity. Qed.

Example select_mask :
  HoldOneSessionOut.select [true; false; true] [10; 20; 30]%nat = [10; 30]%nat.
Proof. reflexivity. Qed.

(** One short session ([s1], two non-test rows) and one session that
    only has a test row ([s2]). *)
Example small_session_split_rows :
  SmallSessions.small_session_split
    [ SmallSessions.Build_csv_row unit "s1001-a.wav" 0 tt;
      SmallSessions.Build_csv_row unit "s1002-b.wav" 0 tt;
      SmallSessions.Build_csv_row unit "s2001-a.wav" 1 tt ]
  = [ SmallSessions.Build_df_row unit "s1001-a.wav" 1 tt "s1";
      SmallSessions.Build_df_row unit "s1002-b.wav" 1 tt "s1";
      SmallSessions.Build_df_row unit "s2001-a.wav" 1 tt "s2" ].
Proof. reflexivity. Qed.

(** ** Facts about the range generator *)

Module LogRangeFacts.
Import LogRange.
Open Scope R_scope.

Lemma ln10_pos : 0 < ln 10.
Proof. rewrite <- ln_1. apply ln_increasing; lra. Qed.

Lemma pow10_log10 (x : R) : 0 < x -> pow10 (log10 x) = x.
Proof.
  intros Hx. unfold pow10, log10, Rpower.
  replace (ln x / ln 10 * ln 10) with (ln x).
  - apply exp_ln, Hx.
  - pose proof ln10_pos. field. lra.
Qed.

Lemma pow10_lt (y z : R) : y < z -> pow10 y < pow10 z.
Proof. intros Hyz. apply Rpower_lt; [lra | assumption]. Qed.

Lemma pow10_le (y z : R) : y <= z -> pow10 y <= pow10 z.
Proof.
  intros [Hlt | ->]; [left; apply pow10_lt, Hlt | right; reflexivity].
Qed.

Lemma log10_lt (x y : R) : 0 < x -> x < y -> log10 x < log10 y.
Proof.
  intros Hx Hxy. unfold log10. pose proof ln10_pos.
  apply Rmult_lt_compat_r; [apply Rinv_0_lt_compat; lra |].
  apply ln_increasing; assumption.
Qed.

Lemma log10_le (x y : R) : 0 < x -> x <= y -> log10 x <= log10 y.
Proof.
  intros Hx [Hlt | ->]; [left; apply log10_lt; assumption | right; reflexivity].
Qed.


Lemma linspace_length (a b : R) (num : Z) :
  (0 <= num)%Z ->
  exists l, linspace a b num = Ok l /\ length l = Z.to_nat num.
Proof.
  intros Hn. unfold linspace.
  destruct (Z.ltb_spec num 0); [lia |].
  eexists; split; [reflexivity |].
  destruct (1 <? num)%Z; unfold set_last; rewrite ?length_insert;
    destruct (0 <? num - 1)%Z; rewrite !length_map, length_seq; reflexivity.
Qed.

Lemma linspace_single (a b : R) : linspace a b 1 = Ok [a].
Proof.
  unfold linspace. simpl. f_equal. f_equal. lra.
Qed.

(** For at least two samples every sample lies on the line from [a] to
    [b]; in particular the overwritten last sample does. *)
Lemma linspace_lookup (a b : R) (num : Z) (l : list R) (i : nat) :
  (2 <= num)%Z -> linspace a b num = Ok l -> (i < Z.to_nat num)%nat ->
  l !! i = Some (a + INR i * ((b - a) / IZR (num - 1))).
Proof.
  intros Hn E Hi. unfold linspace in E.
  destruct (Z.ltb_spec num 0); [lia |].
  destruct (Z.ltb_spec 0 (num - 1)); [| lia].
  destruct (Z.ltb_spec 1 num); [| lia].
  inversion E; subst l; clear E. unfold set_last.
  rewrite !length_map, length_seq.
  destruct (decide (i = Nat.pred (Z.to_nat num))) as [-> | Hne].
  - rewrite list_lookup_insert_eq
      by (rewrite !length_map, length_seq; lia).
    f_equal. rewrite INR_IZR_INZ.
    replace (Z.of_nat (Nat.pred (Z.to_nat num))) with (num - 1)%Z by lia.
    assert (IZR (num - 1) <> 0) by (apply not_0_IZR; lia).
    field. assumption.
  - rewrite list_lookup_insert_ne by congruence.
    rewrite !list_lookup_fmap, lookup_seq_lt by lia. simpl.
    f_equal. lra.
Qed.

Lemma range_unfold (hps : hp_spec) (hp : string) (lo hi : R) (num : Z) :
  lookup_key hps hp = Ok (lo, hi, num) ->
  range hps hp = (l ← linspace (log10 lo) (log10 hi) num; Ok (map pow10 l)).
Proof. intros E. unfold range. rewrite E. reflexivity. Qed.

Lemma range_length (hps : hp_spec) (hp : string) (lo hi : R) (num : Z) :
  lookup_key hps hp = Ok (lo, hi, num) -> (0 <= num)%Z ->
  exists l, range hps hp = Ok l /\ length l = Z.to_nat num.
Proof.
  intros E Hn. rewrite (range_unfold _ _ _ _ _ E).
  destruct (linspace_length (log10 lo) (log10 hi) num Hn) as (l & El & Hl).
  rewrite El. simpl. eexists; split; [reflexivity |].
  rewrite length_map. exact Hl.
Qed.

Lemma range_lookup (hps : hp_spec) (hp : string) (lo hi : R) (num : Z)
    (l : list R) (i : nat) :
  lookup_key hps hp = Ok (lo, hi, num) -> (2 <= num)%Z ->
  range hps hp = Ok l -> (i < Z.to_nat num)%nat ->
  l !! i = Some (pow10 (log10 lo
                        + INR i * ((log10 hi - log10 lo) / IZR (num - 1)))).
Proof.
  intros E Hn Er Hi. rewrite (range_unfold _ _ _ _ _ E) in Er.
  apply bind_Ok in Er as (l0 & El0 & Er). inversion Er; subst l; clear Er.
  rewrite list_lookup_fmap, (linspace_lookup _ _ _ _ _ Hn El0 Hi).
  reflexivity.
Qed.

Lemma range_single (hps : hp_spec) (hp : string) (lo hi : R) :
  0 < lo -> lookup_key hps hp = Ok (lo, hi, 1%Z) -> range hps hp = Ok [lo].
Proof.
  intros Hlo E. rewrite (range_unfold _ _ _ _ _ E), linspace_single.
  simpl. rewrite (pow10_log10 _ Hlo). reflexivity.
Qed.

(** C9: with [count = 1] the generator returns the single value [low],
    whatever the high bound is: a specification that differs only in its
    high bound gives the same output. *)
Theorem range_single_point (hps : hp_spec) (hp : string) (lo hi : R) :
  0 < lo -> 0 < hi -> lookup_key hps hp = Ok (lo, hi, 1%Z) ->
  range hps hp = Ok [lo] /\
  forall (hps' : hp_spec) (hi' : R),
    0 < hi' -> lookup_key hps' hp = Ok (lo, hi', 1%Z) ->
    range hps' hp = range hps hp.
Proof.
  intros Hlo _ E. split; [apply (range_single hps hp lo hi Hlo E) |].
  intros hps' hi' _ E'.
  rewrite (range_single hps hp lo hi Hlo E).
  apply (range_single hps' hp lo hi' Hlo E').
Qed.

(** The momentum dimension of [hps3], [m = (9e-1, 10e-1, 1)], yields only
    0.9. *)
Lemma range_single_point_witness :
  0 < 9e-1 /\ 0 < 10e-1 /\
  range GridSearch.hps3 "m" = Ok [9e-1] /\ 9e-1 <> 10e-1.
Proof.
  split; [lra |]. split; [lra |]. split; [| lra].
  apply (range_single_point GridSearch.hps3 "m" 9e-1 10e-1);
    [lra | lra | reflexivity].
Defined.




End LogRangeFacts.

(** ** Facts about the grid *)

Module GridFacts.
Import LogRange GridSearch.

Lemma product_length {A} (ls : list (list A)) :
  length (product ls) = foldr (fun l n => (length l * n)%nat) 1%nat ls.
Proof.
  induction ls as [|l ls IH]; simpl; [reflexivity |].
  rewrite <- IH. clear IH.
  induction l as [|x l IHl]; simpl; [reflexivity |].
  rewrite length_app, length_map, IHl. reflexivity.
Qed.

(** Every point of the product has one coordinate per range. *)
Lemma product_point_length {A} (ls : list (list A)) (pt : list A) :
  pt ∈ product ls -> length pt = length ls.
Proof.
  revert pt. induction ls as [|l ls IH]; intros pt Hpt; simpl in *.
  - apply list_elem_of_singleton in Hpt. subst. reflexivity.
  - apply list_elem_of_In, in_flat_map in Hpt as (x & _ & Hpt).
    apply in_map_iff in Hpt as (q & <- & Hq). simpl. f_equal.
    apply IH, list_elem_of_In, Hq.
Qed.

Lemma lookup_key_In (hps : hp_spec) (k : string) (d : dim_spec) :
  NoDup (keys hps) -> (k, d) ∈ hps -> lookup_key hps k = Ok d.
Proof.
  induction hps as [|[k0 d0] hps IH]; intros Hnd Hin.
  - inversion Hin.
  - simpl in Hnd. apply NoDup_cons in Hnd as [Hk0 Hnd]. simpl.
    apply elem_of_cons in Hin as [Heq | Hin].
    + inversion Heq; subst. destruct (decide (k0 = k0)); [reflexivity | congruence].
    + destruct (decide (k0 = k)) as [-> | Hne]; [| apply IH; assumption].
      exfalso. apply Hk0. unfold keys.
      apply list_elem_of_fmap. exists (k, d). split; [reflexivity | exact Hin].
Qed.

Lemma ranges_of_dims (hps sub : hp_spec) :
  (forall k d, (k, d) ∈ sub -> lookup_key hps k = Ok d) ->
  Forall (fun n => (0 <= n)%Z) (counts sub) ->
  exists rs, mapM (range hps) (keys sub) = Ok rs /\
    Forall2 (fun kd l => length l = Z.to_nat kd.2.2) sub rs.
Proof.
  induction sub as [|[k [[lo hi] num]] sub IH]; intros Hsub Hcnt.
  - exists []. split; [reflexivity | constructor].
  - simpl in Hcnt. apply Forall_cons in Hcnt as [Hnum Hcnt].
    destruct IH as (rs & Ers & Hrs); [| exact Hcnt |].
    { intros k' d' Hin. apply Hsub. right. exact Hin. }
    assert (E : lookup_key hps k = Ok (lo, hi, num)) by (apply Hsub; left).
    destruct (LogRangeFacts.range_length _ _ _ _ _ E Hnum) as (l & El & Hl).
    exists (l :: rs). split.
    + unfold keys in *. simpl. rewrite El. simpl.
      change (mapM (range hps) (map fst sub) ≫= _) with
        (mapM (range hps) (map fst sub) ≫= fun k0 => Ok (l :: k0)).
      rewrite Ers. reflexivity.
    + constructor; [exact Hl | exact Hrs].
Qed.

Lemma product_of_counts (sub : hp_spec) (rs : list (list R)) :
  Forall (fun n => (0 <= n)%Z) (counts sub) ->
  Forall2 (fun kd l => length l = Z.to_nat kd.2.2) sub rs ->
  Z.of_nat (foldr (fun l n => (length l * n)%nat) 1%nat rs) = grid_size sub.
Proof.
  intros Hcnt Hrs. induction Hrs as [|kd l sub rs Hl Hrs IH]; [reflexivity |].
  simpl in Hcnt. apply Forall_cons in Hcnt as [Hnum Hcnt].
  unfold grid_size in *. simpl. rewrite Nat2Z.inj_mul, IH, Hl by exact Hcnt.
  rewrite Z2Nat.id by exact Hnum. reflexivity.
Qed.

Lemma make_grid_Ok (hps : hp_spec) :
  NoDup (keys hps) -> Forall (fun n => (0 <= n)%Z) (counts hps) ->
  exists grid, make_grid hps = Ok grid /\
    Z.of_nat (length grid) = grid_size hps /\
    forall pt, pt ∈ grid -> length pt = length hps.
Proof.
  intros Hnd Hcnt.
  destruct (ranges_of_dims hps hps) as (rs & Ers & Hrs);
    [intros k d; apply lookup_key_In, Hnd | exact Hcnt |].
  exists (product rs). split; [| split].
  - unfold make_grid. rewrite Ers. reflexivity.
  - rewrite product_length. apply product_of_counts; assumption.
  - intros pt Hpt. rewrite (product_point_length _ _ Hpt).
    symmetry. apply (Forall2_length _ _ _ Hrs).
Qed.

(** C3: the grid of a specification (distinct dimension names, counts
    that are numbers of points) has as many points as the product of the
    per-dimension counts. *)
Theorem grid_size_is_product_of_counts (hps : hp_spec) :
  NoDup (keys hps) -> Forall (fun n => (0 <= n)%Z) (counts hps) ->
  exists grid, make_grid hps = Ok grid /\
    Z.of_nat (length grid) = grid_size hps.
Proof.
  intros Hnd Hcnt.
  destruct (make_grid_Ok hps Hnd Hcnt) as (grid & Eg & Hsize & _).
  exists grid. split; assumption.
Qed.

Lemma grid_size_is_product_of_counts_witness :
  exists grid, make_grid hps3 = Ok grid /\ Z.of_nat (length grid) = 90%Z.
Proof.
  apply (grid_size_is_product_of_counts hps3).
  - apply (bool_decide_eq_true_1 (NoDup (keys hps3))). reflexivity.
  - unfold hps3, counts. simpl. repeat constructor; lia.
Defined.

End GridFacts.

(** ** Facts about series: sums, extrema and their positions *)

Module SeriesFacts.
Import GridSearch.
Open Scope R_scope.

Lemma fold_sum_map (df : cv_frame) :
  fold_sum df = map (fun e => split_0_val e + split_1_val e + split_2_val e) df.
Proof.
  unfold fold_sum, series_add, col.
  induction df as [|e df IH]; simpl; [reflexivity | f_equal; exact IH].
Qed.

Lemma fold_sum_length (df : cv_frame) : length (fold_sum df) = length df.
Proof. rewrite fold_sum_map, length_map. reflexivity. Qed.

Lemma fold_mean_scale (df : cv_frame) :
  fold_mean df = map (fun x => x / 3) (fold_sum df).
Proof. rewrite fold_sum_map. unfold fold_mean. rewrite map_map. reflexivity. Qed.

Lemma fold_left_Rmax_spec (s : list R) (x : R) :
  (fold_left Rmax s x = x \/ In (fold_left Rmax s x) s) /\
  x <= fold_left Rmax s x /\
  forall y, In y s -> y <= fold_left Rmax s x.
Proof.
  revert x. induction s as [|y s IH]; intros x; simpl.
  - split; [left; reflexivity |]. split; [lra | tauto].
  - destruct (IH (Rmax x y)) as (Hin & Hge & Hall).
    pose proof (Rmax_l x y). pose proof (Rmax_r x y).
    split; [| split].
    + destruct Hin as [Heq | Hin]; [| right; right; exact Hin].
      rewrite Heq. destruct (Rmax_case x y (fun z => z = x \/ z = y)) as [E | E];
        auto.
    + lra.
    + intros z [<- | Hz]; [lra | apply Hall, Hz].
Qed.

Lemma fold_left_Rmin_spec (s : list R) (x : R) :
  (fold_left Rmin s x = x \/ In (fold_left Rmin s x) s) /\
  fold_left Rmin s x <= x /\
  forall y, In y s -> fold_left Rmin s x <= y.
Proof.
  revert x. induction s as [|y s IH]; intros x; simpl.
  - split; [left; reflexivity |]. split; [lra | tauto].
  - destruct (IH (Rmin x y)) as (Hin & Hge & Hall).
    pose proof (Rmin_l x y). pose proof (Rmin_r x y).
    split; [| split].
    + destruct Hin as [Heq | Hin]; [| right; right; exact Hin].
      rewrite Heq. destruct (Rmin_case x y (fun z => z = x \/ z = y)) as [E | E];
        auto.
    + lra.
    + intros z [<- | Hz]; [lra | apply Hall, Hz].
Qed.

Lemma series_max_is_maximum (s : list R) :
  s <> [] -> is_maximum (series_max s) s.
Proof.
  destruct s as [|x s]; [congruence | intros _]. simpl.
  destruct (fold_left_Rmax_spec s x) as (Hin & Hge & Hall). split.
  - apply list_elem_of_lookup, list_elem_of_In.
    destruct Hin as [-> | Hin]; [left; reflexivity | right; exact Hin].
  - intros e y Hy. apply list_elem_of_lookup_2, list_elem_of_In in Hy.
    destruct Hy as [<- | Hy]; [exact Hge | apply Hall, Hy].
Qed.

Lemma series_min_is_minimum (s : list R) :
  s <> [] -> is_minimum (series_min s) s.
Proof.
  destruct s as [|x s]; [congruence | intros _]. simpl.
  destruct (fold_left_Rmin_spec s x) as (Hin & Hge & Hall). split.
  - apply list_elem_of_lookup, list_elem_of_In.
    destruct Hin as [-> | Hin]; [left; reflexivity | right; exact Hin].
  - intros e y Hy. apply list_elem_of_lookup_2, list_elem_of_In in Hy.
    destruct Hy as [<- | Hy]; [exact Hge | apply Hall, Hy].
Qed.

(** Looking a position up in a prefix extended by one element. *)
Lemma lookup_snoc_Some (p : list R) (x y : R) (j : nat) :
  (p ++ [x]) !! j = Some y ->
  ((j < length p)%nat /\ p !! j = Some y) \/ (j = length p /\ y = x).
Proof.
  intros Hj. destruct (decide (j < length p)%nat) as [Hlt | Hge].
  - left. rewrite lookup_app_l in Hj by exact Hlt. auto.
  - right. rewrite lookup_app_r in Hj by lia.
    destruct (j - length p)%nat as [|n] eqn:En; simpl in Hj.
    + inversion Hj. split; [lia | reflexivity].
    + discriminate.
Qed.

Lemma argmax_from_spec (s p : list R) (best : R) (bi : nat) :
  p !! bi = Some best ->
  (forall j x, p !! j = Some x -> x <= best) ->
  (forall j x, (j < bi)%nat -> p !! j = Some x -> x < best) ->
  first_argmax (p ++ s) (argmax_from best bi (length p) s).
Proof.
  revert p best bi. induction s as [|x s IH]; intros p best bi Hbi Hall Hbefore.
  - simpl. rewrite app_nil_r. exists best. auto.
  - simpl. pose proof (lookup_lt_Some _ _ _ Hbi) as Hlen.
    replace (p ++ x :: s) with ((p ++ [x]) ++ s)
      by (rewrite <- app_assoc; reflexivity).
    replace (S (length p)) with (length (p ++ [x]))
      by (rewrite length_app; simpl; lia).
    destruct (Rlt_dec best x) as [Hlt | Hnlt].
    + apply IH.
      * rewrite lookup_app_r, Nat.sub_diag by lia. reflexivity.
      * intros j y Hy.
        apply lookup_snoc_Some in Hy as [[_ Hy] | [_ ->]]; [| lra].
        specialize (Hall _ _ Hy). lra.
      * intros j y Hj Hy.
        apply lookup_snoc_Some in Hy as [[_ Hy] | [-> _]]; [| lia].
        specialize (Hall _ _ Hy). lra.
    + apply IH.
      * rewrite lookup_app_l by exact Hlen. exact Hbi.
      * intros j y Hy.
        apply lookup_snoc_Some in Hy as [[_ Hy] | [_ ->]]; [| lra].
        apply (Hall _ _ Hy).
      * intros j y Hj Hy.
        apply lookup_snoc_Some in Hy as [[_ Hy] | [-> _]]; [| lia].
        apply (Hbefore _ _ Hj Hy).
Qed.

Lemma argmin_from_spec (s p : list R) (best : R) (bi : nat) :
  p !! bi = Some best ->
  (forall j x, p !! j = Some x -> best <= x) ->
  (forall j x, (j < bi)%nat -> p !! j = Some x -> best < x) ->
  first_argmin (p ++ s) (argmin_from best bi (length p) s).
Proof.
  revert p best bi. induction s as [|x s IH]; intros p best bi Hbi Hall Hbefore.
  - simpl. rewrite app_nil_r. exists best. auto.
  - simpl. pose proof (lookup_lt_Some _ _ _ Hbi) as Hlen.
    replace (p ++ x :: s) with ((p ++ [x]) ++ s)
      by (rewrite <- app_assoc; reflexivity).
    replace (S (length p)) with (length (p ++ [x]))
      by (rewrite length_app; simpl; lia).
    destruct (Rlt_dec x best) as [Hlt | Hnlt].
    + apply IH.
      * rewrite lookup_app_r, Nat.sub_diag by lia. reflexivity.
      * intros j y Hy.
        apply lookup_snoc_Some in Hy as [[_ Hy] | [_ ->]]; [| lra].
        specialize (Hall _ _ Hy). lra.
      * intros j y Hj Hy.
        apply lookup_snoc_Some in Hy as [[_ Hy] | [-> _]]; [| lia].
        specialize (Hall _ _ Hy). lra.
    + apply IH.
      * rewrite lookup_app_l by exact Hlen. exact Hbi.
      * intros j y Hy.
        apply lookup_snoc_Some in Hy as [[_ Hy] | [_ ->]]; [| lra].
        apply (Hall _ _ Hy).
      * intros j y Hj Hy.
        apply lookup_snoc_Some in Hy as [[_ Hy] | [-> _]]; [| lia].
        apply (Hbefore _ _ Hj Hy).
Qed.

Lemma argmax_spec (s : list R) (e : Z) :
  argmax s = Ok e -> exists n : nat, e = Z.of_nat n /\ first_argmax s n.
Proof.
  destruct s as [|x s]; simpl; intros E; inversion E.
  eexists; split; [reflexivity |].
  apply (argmax_from_spec s [x] x 0).
  - reflexivity.
  - intros [|j] y Hy; simpl in Hy; inversion Hy. lra.
  - intros j y Hj. lia.
Qed.

Lemma argmin_spec (s : list R) (e : Z) :
  argmin s = Ok e -> exists n : nat, e = Z.of_nat n /\ first_argmin s n.
Proof.
  destruct s as [|x s]; simpl; intros E; inversion E.
  eexists; split; [reflexivity |].
  apply (argmin_from_spec s [x] x 0).
  - reflexivity.
  - intros [|j] y Hy; simpl in Hy; inversion Hy. lra.
  - intros j y Hj. lia.
Qed.

Lemma argmax_Ok (s : list R) : s <> [] -> exists e, argmax s = Ok e.
Proof. destruct s; [congruence | intros _; eexists; reflexivity]. Qed.

Lemma argmin_Ok (s : list R) : s <> [] -> exists e, argmin s = Ok e.
Proof. destruct s; [congruence | intros _; eexists; reflexivity]. Qed.

Lemma argmax_nonempty (s : list R) (e : Z) : argmax s = Ok e -> s <> [].
Proof. destruct s; [discriminate | congruence]. Qed.

Lemma argmin_nonempty (s : list R) (e : Z) : argmin s = Ok e -> s <> [].
Proof. destruct s; [discriminate | congruence]. Qed.

Lemma first_argmax_lt (s : list R) (n : nat) :
  first_argmax s n -> (n < length s)%nat.
Proof. intros (v & Hv & _). apply (lookup_lt_Some _ _ _ Hv). Qed.

Lemma first_argmin_lt (s : list R) (n : nat) :
  first_argmin s n -> (n < length s)%nat.
Proof. intros (v & Hv & _). apply (lookup_lt_Some _ _ _ Hv). Qed.

(** Dividing a curve by three keeps its extrema and their positions. *)
Lemma lookup_third (s : list R) (j : nat) (y : R) :
  map (fun x => x / 3) s !! j = Some y <->
  exists x, s !! j = Some x /\ y = x / 3.
Proof.
  rewrite list_lookup_fmap.
  destruct (s !! j) as [x|]; simpl; split.
  - intros E. inversion E. eauto.
  - intros (x' & E & ->). inversion E. reflexivity.
  - discriminate.
  - intros (x' & E & _). discriminate.
Qed.

Lemma is_maximum_third (v : R) (s : list R) :
  is_maximum v s -> is_maximum (v / 3) (map (fun x => x / 3) s).
Proof.
  intros [[e He] Hall]. split.
  - exists e. apply lookup_third. eauto.
  - intros j y Hy. apply lookup_third in Hy as (x & Hx & ->).
    specialize (Hall _ _ Hx). lra.
Qed.

Lemma is_minimum_third (v : R) (s : list R) :
  is_minimum v s -> is_minimum (v / 3) (map (fun x => x / 3) s).
Proof.
  intros [[e He] Hall]. split.
  - exists e. apply lookup_third. eauto.
  - intros j y Hy. apply lookup_third in Hy as (x & Hx & ->).
    specialize (Hall _ _ Hx). lra.
Qed.

Lemma first_argmax_third (s : list R) (n : nat) :
  first_argmax s n -> first_argmax (map (fun x => x / 3) s) n.
Proof.
  intros (v & Hv & Hall & Hbefore). exists (v / 3). split; [| split].
  - apply lookup_third. eauto.
  - intros j y Hy. apply lookup_third in Hy as (x & Hx & ->).
    specialize (Hall _ _ Hx). lra.
  - intros j y Hj Hy. apply lookup_third in Hy as (x & Hx & ->).
    specialize (Hbefore _ _ Hj Hx). lra.
Qed.

Lemma first_argmin_third (s : list R) (n : nat) :
  first_argmin s n -> first_argmin (map (fun x => x / 3) s) n.
Proof.
  intros (v & Hv & Hall & Hbefore). exists (v / 3). split; [| split].
  - apply lookup_third. eauto.
  - intros j y Hy. apply lookup_third in Hy as (x & Hx & ->).
    specialize (Hall _ _ Hx). lra.
  - intros j y Hj Hy. apply lookup_third in Hy as (x & Hx & ->).
    specialize (Hbefore _ _ Hj Hx). lra.
Qed.

End SeriesFacts.

(** ** Facts about the searches *)

Module SearchFacts.
Import LogRange GridSearch SeriesFacts.
Open Scope R_scope.

(** A loop whose [i]-th iteration only rewrites row [i] leaves in every
    row what its own iteration put there. *)
Lemma for_each_rows (body : list row -> nat * list R -> result (list row))
    (P : nat -> list R -> row -> row -> Prop) :
  (forall sel i pt sel', body sel (i, pt) = Ok sel' ->
     exists f, sel' = alter f i sel /\ forall r0, P i pt r0 (f r0)) ->
  forall grid k sel sel',
    for_each body (enumerate_from k grid) sel = Ok sel' ->
    length sel' = length sel /\
    (forall j, (j < k)%nat -> sel' !! j = sel !! j) /\
    (forall j pt r0, grid !! j = Some pt -> sel !! (k + j)%nat = Some r0 ->
       exists r, sel' !! (k + j)%nat = Some r /\ P (k + j)%nat pt r0 r).
Proof.
  intros Hbody. induction grid as [|pt0 grid IH]; intros k sel sel' E.
  - simpl in E. inversion E; subst.
    split; [reflexivity |]. split; [reflexivity |].
    intros j pt r0 Hj. inversion Hj.
  - simpl in E. apply bind_Ok in E as (sel1 & E1 & E).
    destruct (Hbody _ _ _ _ E1) as (f & -> & Hf).
    destruct (IH _ _ _ E) as (Hlen & Hlow & Hrows).
    rewrite length_alter in Hlen. split; [exact Hlen |]. split.
    + intros j Hj. rewrite Hlow by lia. apply list_lookup_alter_ne. lia.
    + intros [|j] pt r0 Hpt Hr0.
      * simpl in Hpt. inversion Hpt; subst pt0. rewrite Nat.add_0_r in *.
        exists (f r0). split; [| apply Hf].
        rewrite Hlow by lia. rewrite list_lookup_alter_eq, Hr0. reflexivity.
      * simpl in Hpt. replace (k + S j)%nat with (S k + j)%nat in * by lia.
        apply (Hrows j pt r0 Hpt).
        rewrite list_lookup_alter_ne by lia. exact Hr0.
Qed.

Lemma for_each_Ok {A S} (body : S -> nat * A -> result S) (grid : list A) :
  (forall sel i pt, pt ∈ grid -> exists sel', body sel (i, pt) = Ok sel') ->
  forall k sel, exists sel', for_each body (enumerate_from k grid) sel = Ok sel'.
Proof.
  induction grid as [|pt grid IH]; intros Hbody k sel; simpl.
  - eexists; reflexivity.
  - destruct (Hbody sel k pt) as (sel1 & E1); [left |].
    rewrite E1. simpl. apply IH. intros sel0 i pt' Hin. apply Hbody.
    right. exact Hin.
Qed.

(** The shape shared by the four searches: build the grid, run the loop
    on a zero-filled frame, index the frame by the grid. *)
Lemma search_rows (body : list row -> nat * list R -> result (list row))
    (P : nat -> list R -> row -> row -> Prop) (hps : hp_spec) (t : table) :
  (forall sel i pt sel', body sel (i, pt) = Ok sel' ->
     exists f, sel' = alter f i sel /\ forall r0, P i pt r0 (f r0)) ->
  (grid ← make_grid hps;
   selector ← for_each body (enumerate grid) (new_selector grid);
   Ok (zip grid selector)) = Ok t ->
  exists grid, make_grid hps = Ok grid /\ length t = length grid /\
    forall i pt r, t !! i = Some (pt, r) ->
      grid !! i = Some pt /\ P i pt zero_row r.
Proof.
  intros Hbody E. apply bind_Ok in E as (grid & Eg & E).
  apply bind_Ok in E as (sel' & Es & E). inversion E; subst t; clear E.
  destruct (for_each_rows body P Hbody _ _ _ _ Es) as (Hlen & _ & Hrows).
  unfold new_selector in *. rewrite length_replicate in Hlen.
  exists grid. split; [exact Eg |]. split.
  - rewrite length_zip_with_l_eq by lia. reflexivity.
  - intros i pt r Hi. apply lookup_zip_with_Some in Hi as (pt' & r' & Hpr & Hpt & Hr).
    inversion Hpr; subst pt' r'. split; [exact Hpt |].
    destruct (Hrows i pt zero_row Hpt) as (r1 & Hr1 & HP).
    + apply lookup_replicate_2. apply (lookup_lt_Some _ _ _ Hpt).
    + simpl in Hr1. rewrite Hr in Hr1. inversion Hr1; subst. exact HP.
Qed.

Lemma search_Ok (body : list row -> nat * list R -> result (list row))
    (hps : hp_spec) (grid : list (list R)) :
  make_grid hps = Ok grid ->
  (forall sel i pt, pt ∈ grid -> exists sel', body sel (i, pt) = Ok sel') ->
  exists t,
    (grid ← make_grid hps;
     selector ← for_each body (enumerate grid) (new_selector grid);
     Ok (zip grid selector)) = Ok t.
Proof.
  intros Eg Hbody. rewrite Eg. simpl.
  destruct (for_each_Ok body grid Hbody 0 (new_selector grid)) as (sel' & Es).
  unfold enumerate. rewrite Es. simpl. eexists; reflexivity.
Qed.

Section Bodies.
Context `{Training}.

(** Unfolds one loop body that returned and names what it computed. *)
Ltac open_body E :=
  repeat match type of E with
         | (_ ≫= _) = Ok _ =>
             let a := fresh "a" in let Ea := fresh "Ea" in
             apply bind_Ok in E as (a & Ea & E)
         end;
  repeat match goal with
         | Ea : getitem _ _ = Ok _ |- _ => apply getitem_Ok in Ea
         end.

Lemma sgd_body_rows (mk : R -> model) (df : dataset)
    (sel : list row) (i : nat) (pt : list R) (sel' : list row) :
  (dr ← getitem pt 0;
   let model_pt := mk dr in
   lr ← getitem pt 1;
   m ← getitem pt 2;
   wd ← getitem pt 3;
   let output_pt := crossvalid_nobar i model_pt df lr m wd in
   let df_f1 := unweighted_f1 output_pt in
   let df_logloss := logloss output_pt in
   let selector :=
     loc_set i (set_best_f1_val (series_max (fold_sum df_f1) / 3)) sel in
   stop ← argmax (fold_sum df_f1);
   let selector := loc_set i (set_f1_val_stop stop) selector in
   let selector :=
     loc_set i (set_best_logloss_val (series_min (fold_sum df_logloss) / 3))
             selector in
   stop ← argmin (fold_sum df_logloss);
   let selector := loc_set i (set_logloss_val_stop stop) selector in
   Ok selector) = Ok sel' ->
  exists f, sel' = alter f i sel /\ forall r0, sgd_row mk df i pt r0 (f r0).
Proof.
  intros E. cbv zeta in E. open_body E. inversion E; subst sel'; clear E.
  destruct pt as [|dr [|lr [|m [|wd pt]]]]; try discriminate.
  simpl in *. repeat match goal with Ea : Some _ = Some _ |- _ =>
                       inversion Ea; subst; clear Ea end.
  unfold loc_set. rewrite !list_alter_alter_eq.
  eexists. split; [reflexivity |]. intros r0.
  eexists _, _, _. repeat split; eassumption.
Qed.

Lemma adamw_body_rows (mk : R -> model) (df : dataset)
    (sel : list row) (i : nat) (pt : list R) (sel' : list row) :
  (dr ← getitem pt 0;
   let model_pt := mk dr in
   lr ← getitem pt 1;
   wd ← getitem pt 2;
   let output_pt := crossvalid_AdamW_nobar i model_pt df lr wd in
   let df_f1 := unweighted_f1 output_pt in
   let df_logloss := logloss output_pt in
   let selector :=
     loc_set i (set_best_f1_val (series_max (fold_sum df_f1) / 3)) sel in
   stop ← argmax (fold_sum df_f1);
   let selector := loc_set i (set_f1_val_stop stop) selector in
   let selector :=
     loc_set i (set_best_f1_val (series_min (fold_sum df_logloss) / 3))
             selector in
   stop ← argmin (fold_sum df_logloss);
   let selector := loc_set i (set_f1_val_stop stop) selector in
   Ok selector) = Ok sel' ->
  exists f, sel' = alter f i sel /\ forall r0, adamw_row mk df i pt r0 (f r0).
Proof.
  intros E. cbv zeta in E. open_body E. inversion E; subst sel'; clear E.
  destruct pt as [|dr [|lr [|wd pt]]]; try discriminate.
  simpl in *. repeat match goal with Ea : Some _ = Some _ |- _ =>
                       inversion Ea; subst; clear Ea end.
  unfold loc_set. rewrite !list_alter_alter_eq.
  eexists. split; [reflexivity |]. intros r0.
  eexists _, _, _. repeat split; eassumption.
Qed.

End Bodies.

(** The stub's curves, evaluated. *)
Ltac decide_R :=
  repeat match goal with
         | |- context [Rlt_dec ?a ?b] =>
             first [ assert (a < b) by lra;
                     destruct (Rlt_dec a b); [| contradiction]
                   | assert (~ a < b) by lra;
                     destruct (Rlt_dec a b); [contradiction |] ]
         | |- context [Rmax ?a ?b] =>
             first [ rewrite (Rmax_right a b) by lra
                   | rewrite (Rmax_left a b) by lra ]
         | |- context [Rmin ?a ?b] =>
             first [ rewrite (Rmin_right a b) by lra
                   | rewrite (Rmin_left a b) by lra ]
         end.
Ltac eval_frame :=
  unfold argmax, argmin, series_max, series_min, fold_sum, series_add, col,
    demo_output;
  cbn [unweighted_f1 logloss map zip_with split_0_val split_1_val split_2_val
       argmax_from argmin_from fold_left].

Lemma demo_argmax : argmax (fold_sum (unweighted_f1 demo_output)) = Ok 1%Z.
Proof. eval_frame. decide_R. reflexivity. Qed.
Lemma demo_max : series_max (fold_sum (unweighted_f1 demo_output)) / 3 = 0.8.
Proof. eval_frame. decide_R. lra. Qed.
Lemma demo_argmin : argmin (fold_sum (logloss demo_output)) = Ok 2%Z.
Proof. eval_frame. decide_R. reflexivity. Qed.
Lemma demo_min : series_min (fold_sum (logloss demo_output)) / 3 = 0.4.
Proof. eval_frame. decide_R. lra. Qed.

Section Rows.
Context `{Training}.

Lemma twolayergridsearch_rows (hps : hp_spec) (df : dataset) (t : table) :
  twolayergridsearch hps df = Ok t ->
  exists grid, make_grid hps = Ok grid /\ length t = length grid /\
    forall i pt r, t !! i = Some (pt, r) ->
      grid !! i = Some pt /\ sgd_row two_layer_classifier_do df i pt zero_row r.
Proof.
  intros E. unfold twolayergridsearch in E.
  apply (search_rows _ (sgd_row two_layer_classifier_do df)) in E; [exact E |].
  intros sel i pt sel' Eb. apply sgd_body_rows. exact Eb.
Qed.

Lemma threelayergridsearch_rows (hps : hp_spec) (df : dataset) (t : table) :
  threelayergridsearch hps df = Ok t ->
  exists grid, make_grid hps = Ok grid /\ length t = length grid /\
    forall i pt r, t !! i = Some (pt, r) ->
      grid !! i = Some pt /\
      sgd_row three_layer_classifier_do df i pt zero_row r.
Proof.
  intros E. unfold threelayergridsearch in E.
  apply (search_rows _ (sgd_row three_layer_classifier_do df)) in E; [exact E |].
  intros sel i pt sel' Eb. apply sgd_body_rows. exact Eb.
Qed.

Lemma twolayergridsearch_AdamW_rows (hps : hp_spec) (df : dataset) (t : table) :
  twolayergridsearch_AdamW hps df = Ok t ->
  exists grid, make_grid hps = Ok grid /\ length t = length grid /\
    forall i pt r, t !! i = Some (pt, r) ->
      grid !! i = Some pt /\
      adamw_row two_layer_classifier_do df i pt zero_row r.
Proof.
  intros E. unfold twolayergridsearch_AdamW in E.
  apply (search_rows _ (adamw_row two_layer_classifier_do df)) in E; [exact E |].
  intros sel i pt sel' Eb. apply adamw_body_rows. exact Eb.
Qed.

Lemma threelayergridsearch_AdamW_rows (hps : hp_spec) (df : dataset)
    (t : table) :
  threelayergridsearch_AdamW hps df = Ok t ->
  exists grid, make_grid hps = Ok grid /\ length t = length grid /\
    forall i pt r, t !! i = Some (pt, r) ->
      grid !! i = Some pt /\
      adamw_row three_layer_classifier_do df i pt zero_row r.
Proof.
  intros E. unfold threelayergridsearch_AdamW in E.
  apply (search_rows _ (adamw_row three_layer_classifier_do df)) in E;
    [exact E |].
  intros sel i pt sel' Eb. apply adamw_body_rows. exact Eb.
Qed.


(** What a recorded SGD row says about the fold-mean curves. *)
Lemma sgd_row_extrema (mk : R -> model) (df : dataset) (i : nat)
    (pt : list R) (r0 r : row) :
  sgd_row mk df i pt r0 r ->
  exists out (e_f1 e_ll : nat),
    sgd_output mk df i pt = Some out /\
    is_maximum (best_f1_val r) (fold_mean (unweighted_f1 out)) /\
    is_minimum (best_logloss_val r) (fold_mean (logloss out)) /\
    f1_val_stop r = Z.of_nat e_f1 /\
    first_argmax (fold_mean (unweighted_f1 out)) e_f1 /\
    logloss_val_stop r = Z.of_nat e_ll /\
    first_argmin (fold_mean (logloss out)) e_ll.
Proof.
  intros (out & s1 & s2 & Eo & E1 & E2 & ->).
  destruct (argmax_spec _ _ E1) as (e1 & -> & H1).
  destruct (argmin_spec _ _ E2) as (e2 & -> & H2).
  exists out, e1, e2. rewrite !fold_mean_scale. simpl.
  split; [exact Eo |]. split.
  { apply is_maximum_third, series_max_is_maximum, (argmax_nonempty _ _ E1). }
  split.
  { apply is_minimum_third, series_min_is_minimum, (argmin_nonempty _ _ E2). }
  split; [reflexivity |]. split; [apply first_argmax_third, H1 |].
  split; [reflexivity | apply first_argmin_third, H2].
Qed.

End Rows.

(** The one-point specification on the stub. *)
Lemma make_grid_point : make_grid hps_point = Ok [[0.1; 1e-3; 0.9; 1e-3]].
Proof.
  unfold make_grid.
  assert (E : mapM (range hps_point) (keys hps_point)
              = Ok [[0.1]; [1e-3]; [0.9]; [1e-3]]).
  { apply mapM_Ok. unfold keys, hps_point. simpl.
    repeat constructor.
    - apply (LogRangeFacts.range_single _ _ _ 0.1); [lra | reflexivity].
    - apply (LogRangeFacts.range_single _ _ _ 1e-3); [lra | reflexivity].
    - apply (LogRangeFacts.range_single _ _ _ 0.9); [lra | reflexivity].
    - apply (LogRangeFacts.range_single _ _ _ 1e-3); [lra | reflexivity]. }
  rewrite E. reflexivity.
Qed.

Lemma demo_twolayergridsearch :
  twolayergridsearch (H := demo_training) hps_point tt
  = Ok [([0.1; 1e-3; 0.9; 1e-3], demo_row)].
Proof.
  unfold twolayergridsearch. rewrite make_grid_point.
  cbn [mbind result_bind enumerate enumerate_from for_each getitem lookup
       list_lookup new_selector length replicate].
  cbn [crossvalid_nobar demo_training].
  rewrite demo_argmax, demo_argmin, demo_max, demo_min.
  reflexivity.
Qed.

Section Claims.
Context `{Training}.

Lemma sgd_output_call (mk : R -> model) (df : dataset) (i : nat)
    (pt : list R) (out : cv_output) :
  sgd_output mk df i pt = Some out ->
  exists mdl lr m wd, out = crossvalid_nobar i mdl df lr m wd.
Proof.
  destruct pt as [|dr [|lr [|m [|wd pt]]]]; simpl; intros E; inversion E.
  eauto.
Qed.

Lemma adamw_output_call (mk : R -> model) (df : dataset) (i : nat)
    (pt : list R) (out : cv_output) :
  adamw_output mk df i pt = Some out ->
  exists mdl lr wd, out = crossvalid_AdamW_nobar i mdl df lr wd.
Proof.
  destruct pt as [|dr [|lr [|wd pt]]]; simpl; intros E; inversion E.
  eauto.
Qed.

Lemma fold_mean_length (df : cv_frame) : length (fold_mean df) = length df.
Proof. unfold fold_mean. apply length_map. Qed.





Lemma sgd_row_stops (n_epochs : nat) (mk : R -> model) (df : dataset)
    (i : nat) (pt : list R) (r0 r : row) :
  (forall k mdl lr m wd,
     length (unweighted_f1 (crossvalid_nobar k mdl df lr m wd)) = n_epochs /\
     length (logloss (crossvalid_nobar k mdl df lr m wd)) = n_epochs) ->
  sgd_row mk df i pt r0 r ->
  (0 <= f1_val_stop r <= Z.of_nat n_epochs - 1)%Z /\
  (0 <= logloss_val_stop r <= Z.of_nat n_epochs - 1)%Z.
Proof.
  intros Hlen Hrow.
  destruct (sgd_row_extrema _ _ _ _ _ _ Hrow)
    as (out & e1 & e2 & Eo & _ & _ & -> & H1 & -> & H2).
  apply sgd_output_call in Eo as (mdl & lr & m & wd & ->).
  apply first_argmax_lt in H1. apply first_argmin_lt in H2.
  rewrite fold_mean_length in H1, H2.
  destruct (Hlen i mdl lr m wd) as [L1 L2]. lia.
Qed.

Lemma adamw_row_stops (n_epochs : nat) (mk : R -> model) (df : dataset)
    (i : nat) (pt : list R) (r : row) :
  (forall k mdl lr wd,
     length (unweighted_f1 (crossvalid_AdamW_nobar k mdl df lr wd)) = n_epochs /\
     length (logloss (crossvalid_AdamW_nobar k mdl df lr wd)) = n_epochs) ->
  adamw_row mk df i pt zero_row r ->
  (0 <= f1_val_stop r <= Z.of_nat n_epochs - 1)%Z /\
  (0 <= logloss_val_stop r <= Z.of_nat n_epochs - 1)%Z.
Proof.
  intros Hlen (out & s1 & s2 & Eo & E1 & E2 & ->). simpl.
  apply adamw_output_call in Eo as (mdl & lr & wd & ->).
  destruct (argmin_spec _ _ E2) as (e2 & -> & H2).
  apply first_argmin_lt in H2. rewrite fold_sum_length in H2.
  destruct (Hlen i mdl lr wd) as [L1 L2]. lia.
Qed.

(** C6: every recorded stopping epoch lies in [0, n_epochs - 1], for
    the four searches, where [n_epochs] is the number of epochs the
    cross-validation routines record. *)
Theorem stop_epochs_within_budget (n_epochs : nat)
    (search : hp_spec -> dataset -> result table)
    (hps : hp_spec) (df : dataset) (t : table)
    (i : nat) (pt : list R) (r : row) :
  (forall k mdl lr m wd,
     length (unweighted_f1 (crossvalid_nobar k mdl df lr m wd)) = n_epochs /\
     length (logloss (crossvalid_nobar k mdl df lr m wd)) = n_epochs) ->
  (forall k mdl lr wd,
     length (unweighted_f1 (crossvalid_AdamW_nobar k mdl df lr wd)) = n_epochs /\
     length (logloss (crossvalid_AdamW_nobar k mdl df lr wd)) = n_epochs) ->
  search ∈ searches -> search hps df = Ok t -> t !! i = Some (pt, r) ->
  (0 <= f1_val_stop r <= Z.of_nat n_epochs - 1)%Z /\
  (0 <= logloss_val_stop r <= Z.of_nat n_epochs - 1)%Z.
Proof.
  intros Hsgd Hadam Hin E Hi. unfold searches in Hin.
  repeat (apply elem_of_cons in Hin as [-> | Hin]).
  - destruct (twolayergridsearch_rows _ _ _ E) as (grid & _ & _ & Hrows).
    destruct (Hrows _ _ _ Hi) as [_ Hrow].
    apply (sgd_row_stops n_epochs _ _ _ _ _ _ Hsgd Hrow).
  - destruct (threelayergridsearch_rows _ _ _ E) as (grid & _ & _ & Hrows).
    destruct (Hrows _ _ _ Hi) as [_ Hrow].
    apply (sgd_row_stops n_epochs _ _ _ _ _ _ Hsgd Hrow).
  - destruct (twolayergridsearch_AdamW_rows _ _ _ E) as (grid & _ & _ & Hrows).
    destruct (Hrows _ _ _ Hi) as [_ Hrow].
    apply (adamw_row_stops n_epochs _ _ _ _ _ Hadam Hrow).
  - destruct (threelayergridsearch_AdamW_rows _ _ _ E)
      as (grid & _ & _ & Hrows).
    destruct (Hrows _ _ _ Hi) as [_ Hrow].
    apply (adamw_row_stops n_epochs _ _ _ _ _ Hadam Hrow).
  - inversion Hin.
Qed.

End Claims.



Lemma stop_epochs_within_budget_witness :
  (0 <= f1_val_stop demo_row <= Z.of_nat 5 - 1)%Z /\
  (0 <= logloss_val_stop demo_row <= Z.of_nat 5 - 1)%Z.
Proof.
  apply (stop_epochs_within_budget (H := demo_training) 5
           twolayergridsearch hps_point tt
           [([0.1; 1e-3; 0.9; 1e-3], demo_row)] 0 [0.1; 1e-3; 0.9; 1e-3]).
  - intros k mdl lr m wd. split; reflexivity.
  - intros k mdl lr wd. split; reflexivity.
  - apply list_elem_of_here.
  - apply demo_twolayergridsearch.
  - reflexivity.
Defined.

Section Success.
Context `{Training}.


Lemma adamw_body_Ok (mk : R -> model) (df : dataset)
    (sel : list row) (i : nat) (pt : list R) :
  (forall k mdl lr wd,
     unweighted_f1 (crossvalid_AdamW_nobar k mdl df lr wd) <> [] /\
     logloss (crossvalid_AdamW_nobar k mdl df lr wd) <> []) ->
  length pt = 3%nat ->
  exists sel',
    (dr ← getitem pt 0;
     let model_pt := mk dr in
     lr ← getitem pt 1;
     wd ← getitem pt 2;
     let output_pt := crossvalid_AdamW_nobar i model_pt df lr wd in
     let df_f1 := unweighted_f1 output_pt in
     let df_logloss := logloss output_pt in
     let selector :=
       loc_set i (set_best_f1_val (series_max (fold_sum df_f1) / 3)) sel in
     stop ← argmax (fold_sum df_f1);
     let selector := loc_set i (set_f1_val_stop stop) selector in
     let selector :=
       loc_set i (set_best_f1_val (series_min (fold_sum df_logloss) / 3))
               selector in
     stop ← argmin (fold_sum df_logloss);
     let selector := loc_set i (set_f1_val_stop stop) selector in
     Ok selector) = Ok sel'.
Proof.
  intros Hne Hpt.
  destruct pt as [|dr [|lr [|wd [|x pt]]]]; try discriminate.
  cbn [getitem lookup list_lookup mbind result_bind].
  destruct (Hne i (mk dr) lr wd) as [N1 N2].
  destruct (argmax_Ok (fold_sum (unweighted_f1
              (crossvalid_AdamW_nobar i (mk dr) df lr wd)))) as (s1 & E1).
  { intros E. apply N1, length_zero_iff_nil.
    rewrite <- fold_sum_length, E. reflexivity. }
  destruct (argmin_Ok (fold_sum (logloss
              (crossvalid_AdamW_nobar i (mk dr) df lr wd)))) as (s2 & E2).
  { intros E. apply N2, length_zero_iff_nil.
    rewrite <- fold_sum_length, E. reflexivity. }
  rewrite E1. cbn [mbind result_bind]. rewrite E2. eexists; reflexivity.
Qed.


Lemma twolayergridsearch_AdamW_Ok (hps : hp_spec) (df : dataset)
    (grid : list (list R)) :
  (forall k mdl lr wd,
     unweighted_f1 (crossvalid_AdamW_nobar k mdl df lr wd) <> [] /\
     logloss (crossvalid_AdamW_nobar k mdl df lr wd) <> []) ->
  make_grid hps = Ok grid -> (forall pt, pt ∈ grid -> length pt = 3%nat) ->
  exists t, twolayergridsearch_AdamW hps df = Ok t.
Proof.
  intros Hne Eg Hpts. unfold twolayergridsearch_AdamW.
  apply (search_Ok _ hps grid Eg).
  intros sel i pt Hpt. apply adamw_body_Ok; [exact Hne | apply Hpts, Hpt].
Qed.


End Success.



(** C1 fails on the AdamW searches.  On the notebook's [hps2_AdamW] and
    the stub (best fold-average F1 0.8 at epoch 1, best fold-average
    log-loss 0.4 at epoch 2) every one of the 60 rows holds the log-loss
    results in the F1 columns and zeros in the log-loss columns. *)
Theorem AdamW_search_overwrites_f1_columns :
  exists t, twolayergridsearch_AdamW (H := demo_training) hps2_AdamW tt = Ok t /\
    length t = 60%nat /\ Forall (fun x => x.2 = demo_AdamW_row) t.
Proof.
  destruct (GridFacts.make_grid_Ok hps2_AdamW) as (grid & Eg & Hsize & Hpts).
  { apply (bool_decide_eq_true_1 (NoDup (keys hps2_AdamW))). reflexivity. }
  { unfold hps2_AdamW, counts. simpl. repeat constructor; lia. }
  destruct (twolayergridsearch_AdamW_Ok (H := demo_training) hps2_AdamW tt grid)
    as (t & Et); [| exact Eg | exact Hpts |].
  { intros k mdl lr wd. split; discriminate. }
  exists t. split; [exact Et |].
  destruct (twolayergridsearch_AdamW_rows _ _ _ Et)
    as (grid' & Eg' & Hlt & Hrows).
  rewrite Eg in Eg'. inversion Eg'; subst grid'. split.
  { rewrite Hlt. apply Nat2Z.inj. rewrite Hsize. reflexivity. }
  apply Forall_lookup. intros i [pt r] Hi. simpl.
  destruct (Hrows _ _ _ Hi) as [_ (out & s1 & s2 & Eo & E1 & E2 & ->)].
  apply adamw_output_call in Eo as (mdl & lr & wd & ->).
  cbn [crossvalid_AdamW_nobar demo_training] in *.
  rewrite demo_argmin in E2. inversion E2; subst s2.
  rewrite demo_min. reflexivity.
Qed.

End SearchFacts.

(** ** Facts about hold-one-session-out validation *)

Module HoldOutFacts.
Import HoldOneSessionOut.
Open Scope R_scope.







Section Fold.
Context `{Classifier}.



End Fold.


End HoldOutFacts.

(** ** Facts about the small-session reallocation *)

Module SmallSessionsFacts.
Import SmallSessions.

Section Frame.
Context {C : Type}.

Lemma value_counts_cons (s : string) (l : list string) :
  value_counts (s :: l)
  = <[s := S (default 0%nat (value_counts l !! s))]> (value_counts l).
Proof. reflexivity. Qed.

(** [session_counts] holds exactly the sessions that have a non-test
    row, each with the number of its non-test rows. *)
Lemma session_counts_lookup (old_df : list (df_row C)) (s : string) :
  session_counts old_df !! s
  = if decide (nontest_count old_df s = 0)%nat then None
    else Some (nontest_count old_df s).
Proof.
  unfold session_counts, nontest_count.
  induction old_df as [|r old_df IH].
  - simpl. rewrite lookup_empty. reflexivity.
  - destruct (decide (is_test r = 0%Z)) as [Ht | Ht].
    + rewrite (filter_cons_True (fun r => is_test r = 0%Z)) by exact Ht.
      cbn [map]. rewrite value_counts_cons.
      destruct (decide (Session r = s)) as [Hs | Hs].
      * rewrite filter_cons_True by (split; assumption). subst s.
        rewrite lookup_insert_eq, IH. simpl.
        destruct (decide (length _ = 0%nat)) as [E | E]; simpl;
          [rewrite E |]; reflexivity.
      * rewrite filter_cons_False by tauto.
        rewrite lookup_insert_ne by exact Hs. exact IH.
    + rewrite (filter_cons_False (fun r => is_test r = 0%Z)) by exact Ht.
      rewrite filter_cons_False by tauto. exact IH.
Qed.

Lemma small_sessions_spec (old_df : list (df_row C)) (s : string) :
  s ∈ small_sessions (session_counts old_df) <->
  (0 < nontest_count old_df s < 15)%nat.
Proof.
  unfold small_sessions. rewrite elem_of_dom. unfold is_Some.
  setoid_rewrite map_lookup_filter_Some. simpl.
  rewrite session_counts_lookup. split.
  - intros (c & Hc & Hlt).
    destruct (decide (nontest_count old_df s = 0%nat)); [discriminate |].
    inversion Hc; subst. lia.
  - intros Hc. exists (nontest_count old_df s).
    destruct (decide (nontest_count old_df s = 0%nat)); [lia |].
    split; [reflexivity | lia].
Qed.

(** A row that is not a test row counts for its own session. *)
Lemma nontest_count_pos (old_df : list (df_row C)) (r : df_row C) :
  r ∈ old_df -> is_test r = 0%Z ->
  (0 < nontest_count old_df (Session r))%nat.
Proof.
  intros Hin Ht. unfold nontest_count.
  assert (Hf : r ∈ filter (fun r0 => is_test r0 = 0%Z /\ Session r0 = Session r)
                          old_df).
  { apply list_elem_of_filter. auto. }
  destruct (filter _ old_df); [inversion Hf | simpl; lia].
Qed.

(** C10: the reallocation keeps the rows and their order, sets [is_test]
    to 1 on every row whose session has fewer than 15 non-test rows,
    leaves every other row as it is, and never lowers [is_test]; the
    session of a row is [get_session] of its file name. *)
Theorem reallocation_only_moves_into_test (csv : list (csv_row C)) :
  (forall r, r ∈ csv -> csv_is_test r = 0%Z \/ csv_is_test r = 1%Z) ->
  length (small_session_split csv) = length csv /\
  forall (i : nat) (r : csv_row C), csv !! i = Some r ->
    exists r', small_session_split csv !! i = Some r' /\
      Filename r' = csv_Filename r /\ other r' = csv_other r /\
      Session r' = get_session (csv_Filename r) /\
      ((nontest_count (map add_session csv) (Session r') < 15)%nat ->
         is_test r' = 1%Z) /\
      (~ (nontest_count (map add_session csv) (Session r') < 15)%nat ->
         r' = add_session r) /\
      (csv_is_test r <= is_test r')%Z.
Proof.
  intros Hflag. unfold small_session_split, reassign.
  split; [rewrite !length_map; reflexivity |].
  intros i r Hi. rewrite !list_lookup_fmap, Hi. simpl.
  eexists; split; [reflexivity |].
  assert (Hin : add_session r ∈ map add_session csv).
  { apply list_elem_of_fmap. exists r. split; [reflexivity |].
    apply (list_elem_of_lookup_2 _ _ _ Hi). }
  pose proof (nontest_count_pos _ _ Hin) as Hpos.
  pose proof (Hflag r (list_elem_of_lookup_2 _ _ _ Hi)) as Hr.
  case_bool_decide as Hsmall; rewrite small_sessions_spec in Hsmall;
    simpl in *.
  - split; [reflexivity |]. split; [reflexivity |]. split; [reflexivity |].
    split; [reflexivity |]. split; [intros Hge; lia |].
    destruct Hr as [Hr | Hr]; rewrite Hr; lia.
  - split; [reflexivity |]. split; [reflexivity |]. split; [reflexivity |].
    split; [| split; [reflexivity | lia]].
    intros Hlt. destruct Hr as [Hr | Hr]; [| exact Hr].
    specialize (Hpos Hr). lia.
Qed.

End Frame.

(** Two rows of a short session and a test row of another session. *)
Lemma reallocation_only_moves_into_test_witness :
  let csv := [ Build_csv_row unit "s1001-a.wav" 0 tt;
               Build_csv_row unit "s1002-b.wav" 0 tt;
               Build_csv_row unit "s2001-a.wav" 1 tt ] in
  length (small_session_split csv) = 3%nat /\
  forall (i : nat) (r : csv_row unit), csv !! i = Some r ->
    exists r', small_session_split csv !! i = Some r' /\
      Filename r' = csv_Filename r /\ other r' = csv_other r /\
      Session r' = get_session (csv_Filename r) /\
      ((nontest_count (map add_session csv) (Session r') < 15)%nat ->
         is_test r' = 1%Z) /\
      (~ (nontest_count (map add_session csv) (Session r') < 15)%nat ->
         r' = add_session r) /\
      (csv_is_test r <= is_test r')%Z.
Proof.
  intros csv. apply (reallocation_only_moves_into_test csv).
  intros r Hr. unfold csv in Hr.
  repeat (apply elem_of_cons in Hr as [-> | Hr]); simpl; auto.
  inversion Hr.
Defined.

End SmallSessionsFacts.

(** * Further properties *)

(** ** The range generator: bounds, spacing, reversed bounds, errors *)

Module LogRangeMore.
Import LogRange LogRangeFacts.
Open Scope R_scope.

Lemma pow10_pos (y : R) : 0 < pow10 y.
Proof. unfold pow10, Rpower. apply exp_pos. Qed.

Lemma pow10_plus (y z : R) : pow10 (y + z) = pow10 y * pow10 z.
Proof. unfold pow10. apply Rpower_plus. Qed.

Lemma pow10_scale (n : nat) (y : R) : pow10 (INR n * y) = pow10 y ^ n.
Proof.
  unfold pow10. rewrite <- Rpower_pow by (apply exp_pos).
  rewrite Rpower_mult. f_equal. lra.
Qed.



(** X1: for [0 < low <= high] and at least one point, every generated
    value lies between [low] and [high]. *)
Theorem range_within_bounds (hps : hp_spec) (hp : string)
    (lo hi : R) (num : Z) :
  0 < lo -> lo <= hi -> (1 <= num)%Z ->
  lookup_key hps hp = Ok (lo, hi, num) ->
  exists l, range hps hp = Ok l /\ length l = Z.to_nat num /\
    forall x, x ∈ l -> lo <= x <= hi.
Proof.
  intros Hlo Hle Hn E.
  destruct (range_length _ _ _ _ _ E ltac:(lia)) as (l & Er & Hlen).
  exists l. split; [exact Er |]. split; [exact Hlen |].
  destruct (decide (num = 1%Z)) as [-> | Hne].
  - rewrite (range_single hps hp lo hi Hlo E) in Er. inversion Er; subst l.
    intros x Hx. apply list_elem_of_singleton in Hx. subst x. lra.
  - assert (Hn2 : (2 <= num)%Z) by lia.
    intros x Hx. apply list_elem_of_lookup in Hx as (i & Hi).
    pose proof (lookup_lt_Some _ _ _ Hi) as Hlt.
    rewrite (range_lookup _ _ _ _ _ l i E Hn2 Er ltac:(lia)) in Hi.
    inversion Hi; subst x; clear Hi.
    pose proof (log10_le lo hi Hlo Hle) as Hlog.
    assert (Hd : 0 < IZR (num - 1)) by (apply IZR_lt; lia).
    assert (Hi1 : 0 <= INR i <= IZR (num - 1)).
    { split; [apply pos_INR |]. rewrite INR_IZR_INZ. apply IZR_le. lia. }
    set (step := (log10 hi - log10 lo) / IZR (num - 1)).
    assert (Hstep : 0 <= step).
    { apply Rmult_le_pos; [lra | left; apply Rinv_0_lt_compat, Hd]. }
    assert (Hfull : IZR (num - 1) * step = log10 hi - log10 lo).
    { unfold step. field. lra. }
    fold step. split.
    + apply Rle_trans with (pow10 (log10 lo));
        [rewrite pow10_log10 by exact Hlo; lra | apply pow10_le; nra].
    + apply Rle_trans with (pow10 (log10 hi));
        [apply pow10_le; nra | rewrite pow10_log10 by lra; lra].
Qed.

Lemma range_within_bounds_witness :
  exists l, range GridSearch.hps3 "dr" = Ok l /\ length l = 5%nat /\
    forall x, x ∈ l -> 1e-1 <= x <= 5e-1.
Proof.
  apply (range_within_bounds GridSearch.hps3 "dr" 1e-1 5e-1 5);
    [lra | lra | lia | reflexivity].
Defined.

(** X2: with at least two points the values form a geometric sequence:
    the [i]-th one is [low * r ^ i] for one positive ratio [r], and
    [r ^ (count - 1) = high / low]. *)
Theorem range_geometric (hps : hp_spec) (hp : string)
    (lo hi : R) (num : Z) :
  0 < lo -> 0 < hi -> (2 <= num)%Z ->
  lookup_key hps hp = Ok (lo, hi, num) ->
  exists (l : list R) (r : R), range hps hp = Ok l /\ 0 < r /\
    r ^ (Z.to_nat num - 1) = hi / lo /\
    forall i, (i < Z.to_nat num)%nat -> l !! i = Some (lo * r ^ i).
Proof.
  intros Hlo Hhi Hn E.
  destruct (range_length _ _ _ _ _ E ltac:(lia)) as (l & Er & Hlen).
  set (step := (log10 hi - log10 lo) / IZR (num - 1)).
  exists l, (pow10 step). split; [exact Er |]. split; [apply pow10_pos |].
  assert (Hd : IZR (num - 1) <> 0) by (apply not_0_IZR; lia).
  split.
  - rewrite <- pow10_scale, INR_IZR_INZ.
    replace (Z.of_nat (Z.to_nat num - 1)) with (num - 1)%Z by lia.
    replace (IZR (num - 1) * step) with (log10 hi + - log10 lo)
      by (unfold step; field; exact Hd).
    rewrite pow10_plus, pow10_log10 by exact Hhi.
    unfold Rdiv. f_equal.
    apply (Rmult_eq_reg_l lo); [| lra].
    rewrite Rinv_r by lra.
    rewrite <- (pow10_log10 lo Hlo) at 1.
    rewrite <- pow10_plus. replace (log10 lo + - log10 lo) with 0 by lra.
    unfold pow10. apply Rpower_O. lra.
  - intros i Hi. rewrite (range_lookup _ _ _ _ _ l i E Hn Er Hi).
    f_equal. fold step. rewrite pow10_plus, pow10_scale, pow10_log10 by exact Hlo.
    reflexivity.
Qed.

Lemma range_geometric_witness :
  exists (l : list R) (r : R), range GridSearch.hps3 "lr" = Ok l /\ 0 < r /\
    r ^ (Z.to_nat 6 - 1) = 1e-2 / 1e-5 /\
    forall i, (i < Z.to_nat 6)%nat -> l !! i = Some (1e-5 * r ^ i).
Proof.
  apply (range_geometric GridSearch.hps3 "lr" 1e-5 1e-2 6);
    [lra | lra | lia | reflexivity].
Defined.




End LogRangeMore.

(** ** The grid: its points, their order, duplicates *)

Module GridMore.
Import LogRange GridSearch LogRangeFacts LogRangeMore GridFacts.
Open Scope R_scope.

Lemma product_elem_of {A} (ls : list (list A)) (pt : list A) :
  pt ∈ product ls <-> Forall2 (fun x l => x ∈ l) pt ls.
Proof.
  revert pt. induction ls as [|l ls IH]; intros pt; simpl.
  - rewrite list_elem_of_singleton. split; [intros ->; constructor |].
    intros Hf. inversion Hf. reflexivity.
  - rewrite list_elem_of_In, in_flat_map. split.
    + intros (x & Hx & Hpt). apply in_map_iff in Hpt as (q & <- & Hq).
      constructor; [apply list_elem_of_In, Hx | apply IH, list_elem_of_In, Hq].
    + intros Hf. inversion Hf as [|x ? q ? Hx Hq]; subst.
      exists x. split; [apply list_elem_of_In, Hx |].
      apply in_map, list_elem_of_In, IH, Hq.
Qed.



(** The ranges of a specification, dimension by dimension. *)
Lemma make_grid_ranges (hps : hp_spec) (grid : list (list R)) :
  make_grid hps = Ok grid ->
  exists rs, grid = product rs /\
    Forall2 (fun kd l => range hps kd.1 = Ok l) hps rs.
Proof.
  unfold make_grid. intros E. apply bind_Ok in E as (rs & Ers & E).
  inversion E; subst grid. exists rs. split; [reflexivity |].
  apply mapM_Ok in Ers. unfold keys in Ers.
  apply Forall2_fmap_l in Ers. exact Ers.
Qed.

Lemma combinations_of_ranges {K A} (f : K -> result (list A))
    (sub : list K) (rs : list (list A)) (pt : list A) :
  Forall2 (fun kd l => f kd = Ok l) sub rs ->
  (Forall2 (fun x l => x ∈ l) pt rs <->
   Forall2 (fun x kd => exists l, f kd = Ok l /\ x ∈ l) pt sub).
Proof.
  intros Hrs. revert pt. induction Hrs as [|kd l sub rs El Hrs IH]; intros pt.
  - split; intros Hpt; inversion Hpt; constructor.
  - split; intros Hpt; inversion Hpt as [|x ? q ? Hx Hq]; subst; constructor.
    + eauto.
    + apply IH, Hq.
    + destruct Hx as (l' & El' & Hx). rewrite El in El'.
      inversion El'; subst. exact Hx.
    + apply IH, Hq.
Qed.

(** X5: the grid is exactly the set of combinations: a point is on the
    grid if and only if it has one coordinate per dimension, each taken
    from that dimension's range. *)
Theorem grid_points_are_combinations (hps : hp_spec) (grid : list (list R))
    (pt : list R) :
  make_grid hps = Ok grid ->
  (pt ∈ grid <->
   Forall2 (fun x kd => exists l, range hps kd.1 = Ok l /\ x ∈ l) pt hps).
Proof.
  intros E. destruct (make_grid_ranges _ _ E) as (rs & -> & Hrs).
  rewrite product_elem_of.
  apply (combinations_of_ranges (fun kd => range hps kd.1) hps rs pt Hrs).
Qed.

Lemma grid_points_are_combinations_witness :
  [0.1; 1e-3; 0.9; 1e-3] ∈ [[0.1; 1e-3; 0.9; 1e-3]] <->
  Forall2 (fun x kd => exists l, range hps_point kd.1 = Ok l /\ x ∈ l)
          [0.1; 1e-3; 0.9; 1e-3] hps_point.
Proof.
  apply (grid_points_are_combinations hps_point [[0.1; 1e-3; 0.9; 1e-3]]).
  apply SearchFacts.make_grid_point.
Defined.






Lemma range_cons_ne (k : string) (d : dim_spec) (hps : hp_spec) (hp : string) :
  k <> hp -> range ((k, d) :: hps) hp = range hps hp.
Proof.
  intros Hne. unfold range. simpl.
  destruct (decide (k = hp)); [congruence | reflexivity].
Qed.

Lemma range_cons_eq (k : string) (d : dim_spec) (hps : hp_spec) :
  range ((k, d) :: hps) k = range [(k, d)] k.
Proof.
  unfold range. simpl. destruct (decide (k = k)); [reflexivity | congruence].
Qed.

Lemma ranges_cons (k : string) (d : dim_spec) (hps sub : hp_spec)
    (rs : list (list R)) :
  (forall kd, kd ∈ sub -> kd.1 <> k) ->
  Forall2 (fun kd l => range hps kd.1 = Ok l) sub rs ->
  Forall2 (fun kd l => range ((k, d) :: hps) kd.1 = Ok l) sub rs.
Proof.
  intros Hsub Ers. induction Ers as [|kd r sub rs Er Ers IH]; constructor.
  - rewrite range_cons_ne; [exact Er |].
    intros Heq. apply (Hsub kd); [left | congruence].
  - apply IH. intros kd' Hin. apply Hsub. right. exact Hin.
Qed.

(** X7: putting a new dimension in front of a specification makes the
    new dimension vary slowest: for each of its values in turn, the grid
    repeats the points of the old grid, in their order, behind that
    value. *)
Theorem grid_of_extended_spec (k : string) (d : dim_spec) (hps : hp_spec)
    (l : list R) (g : list (list R)) :
  k ∉ keys hps -> range [(k, d)] k = Ok l -> make_grid hps = Ok g ->
  make_grid ((k, d) :: hps) = Ok (flat_map (fun x => map (cons x) g) l).
Proof.
  intros Hk El Eg. unfold make_grid in *.
  apply bind_Ok in Eg as (rs & Ers & Eg). inversion Eg; subst g; clear Eg.
  assert (E : mapM (range ((k, d) :: hps)) (keys ((k, d) :: hps))
              = Ok (l :: rs)).
  { apply mapM_Ok. unfold keys. simpl. constructor.
    - rewrite range_cons_eq. exact El.
    - apply mapM_Ok in Ers. unfold keys in *.
      apply Forall2_fmap_l. apply Forall2_fmap_l in Ers.
      apply ranges_cons; [| exact Ers].
      intros kd Hin Heq. apply Hk. rewrite <- Heq.
      apply list_elem_of_fmap. eauto. }
  rewrite E. reflexivity.
Qed.

Lemma grid_of_extended_spec_witness :
  make_grid (("bs"%string, (1, 1, 1%Z)) :: hps_point)
  = Ok (flat_map (fun x => map (cons x) [[0.1; 1e-3; 0.9; 1e-3]]) [1]).
Proof.
  apply (grid_of_extended_spec "bs" (1, 1, 1%Z) hps_point).
  - apply (bool_decide_eq_true_1 ("bs"%string ∉ keys hps_point)). reflexivity.
  - apply (range_single _ _ 1 1); [lra | reflexivity].
  - apply SearchFacts.make_grid_point.
Defined.

End GridMore.

(** ** The searches: index, errors, empty grids, success *)

Module SearchMore.
Import LogRange GridSearch LogRangeFacts LogRangeMore GridFacts SeriesFacts.
Import SearchFacts.
Open Scope R_scope.

(** Membership in a list that is written out. *)
Ltac in_list :=
  repeat first [apply list_elem_of_here | apply list_elem_of_further].






Section Searches.
Context `{Training}.

(** Splits a membership in one of the lists of searches into its cases. *)
Ltac each_search Hin :=
  unfold searches, sgd_searches, adamw_searches, coordinates_read in Hin;
  repeat (apply elem_of_cons in Hin as [Hin | Hin];
          [match type of Hin with
           | ?x = _ => first [subst x | injection Hin as -> ->]
           end |]);
  [.. | inversion Hin].

Lemma searches_rows_index (search : hp_spec -> dataset -> result table)
    (hps : hp_spec) (df : dataset) (t : table) :
  search ∈ searches -> search hps df = Ok t ->
  exists grid, make_grid hps = Ok grid /\ length t = length grid /\
    forall i pt r, t !! i = Some (pt, r) -> grid !! i = Some pt.
Proof.
  intros Hin E. each_search Hin.
  - destruct (twolayergridsearch_rows _ _ _ E) as (g & Eg & Hl & Hr).
    exists g. split; [exact Eg |]. split; [exact Hl |].
    intros i pt r Hi. apply (Hr _ _ _ Hi).
  - destruct (threelayergridsearch_rows _ _ _ E) as (g & Eg & Hl & Hr).
    exists g. split; [exact Eg |]. split; [exact Hl |].
    intros i pt r Hi. apply (Hr _ _ _ Hi).
  - destruct (twolayergridsearch_AdamW_rows _ _ _ E) as (g & Eg & Hl & Hr).
    exists g. split; [exact Eg |]. split; [exact Hl |].
    intros i pt r Hi. apply (Hr _ _ _ Hi).
  - destruct (threelayergridsearch_AdamW_rows _ _ _ E) as (g & Eg & Hl & Hr).
    exists g. split; [exact Eg |]. split; [exact Hl |].
    intros i pt r Hi. apply (Hr _ _ _ Hi).
Qed.

(** X8: the table a search returns is indexed by the grid: its index
    column is the list of grid points, in grid order. *)
Theorem table_index_is_grid (search : hp_spec -> dataset -> result table)
    (hps : hp_spec) (df : dataset) (t : table) :
  search ∈ searches -> search hps df = Ok t ->
  make_grid hps = Ok (map fst t).
Proof.
  intros Hin E.
  destruct (searches_rows_index _ _ _ _ Hin E) as (grid & Eg & Hlen & Hrows).
  rewrite Eg. f_equal. unfold table in *. apply list_eq. intros i.
  destruct (t !! i) as [[pt r]|] eqn:Ei.
  - rewrite (Hrows _ _ _ Ei), list_lookup_fmap, Ei. reflexivity.
  - rewrite list_lookup_fmap, Ei. simpl.
    apply lookup_ge_None. apply lookup_ge_None in Ei. lia.
Qed.

End Searches.

Lemma table_index_is_grid_witness :
  make_grid hps_point
  = Ok (map fst [([0.1; 1e-3; 0.9; 1e-3], demo_row)]).
Proof.
  apply (table_index_is_grid (H := demo_training) twolayergridsearch
           hps_point tt).
  - apply list_elem_of_here.
  - apply demo_twolayergridsearch.
Defined.




Section Outcomes.
Context `{Training}.

Ltac each_search Hin :=
  unfold searches, sgd_searches, adamw_searches, coordinates_read in Hin;
  repeat (apply elem_of_cons in Hin as [Hin | Hin];
          [match type of Hin with
           | ?x = _ => first [subst x | injection Hin as -> ->]
           end |]);
  [.. | inversion Hin].

Ltac open_search :=
  unfold twolayergridsearch, threelayergridsearch,
    twolayergridsearch_AdamW, threelayergridsearch_AdamW.






(** X13: on a specification with distinct names, counts that are numbers
    of points and at least the dimensions the search reads, and with
    cross-validation frames that have an epoch, every search returns a
    table, and the table has as many rows as the product of the counts;
    dimensions beyond those the search reads do not make it fail. *)
Theorem search_returns_table
    (search : hp_spec -> dataset -> result table) (k : nat)
    (hps : hp_spec) (df : dataset) :
  (forall i mdl lr m wd,
     unweighted_f1 (crossvalid_nobar i mdl df lr m wd) <> [] /\
     logloss (crossvalid_nobar i mdl df lr m wd) <> []) ->
  (forall i mdl lr wd,
     unweighted_f1 (crossvalid_AdamW_nobar i mdl df lr wd) <> [] /\
     logloss (crossvalid_AdamW_nobar i mdl df lr wd) <> []) ->
  (search, k) ∈ coordinates_read ->
  NoDup (keys hps) -> Forall (fun n => (0 <= n)%Z) (counts hps) ->
  (k <= length hps)%nat ->
  exists t, search hps df = Ok t /\ Z.of_nat (length t) = grid_size hps.
Proof.
  intros Hsgd Hadam Hin Hnd Hcnt Hk.
  destruct (make_grid_Ok hps Hnd Hcnt) as (grid & Eg & Hsize & Hpts).
  assert (Hsum : forall fr : cv_frame, fr <> [] -> fold_sum fr <> []).
  { intros fr Hfr E. apply Hfr, length_zero_iff_nil.
    rewrite <- fold_sum_length, E. reflexivity. }
  assert (Hok : exists t, search hps df = Ok t).
  { each_search Hin; open_search; apply (search_Ok _ hps grid Eg);
      intros sel i pt Hpt; specialize (Hpts pt Hpt); rewrite <- Hpts in Hk;
      destruct pt as [|dr [|lr [|m [|wd pt]]]]; simpl in Hk; try lia;
      cbn [getitem lookup list_lookup mbind result_bind];
      match goal with
      | |- context [argmax (fold_sum (unweighted_f1 ?o))] =>
          destruct (argmax_Ok (fold_sum (unweighted_f1 o))) as (s1 & E1);
          [apply Hsum; first [apply Hsgd | apply Hadam] |];
          destruct (argmin_Ok (fold_sum (logloss o))) as (s2 & E2);
          [apply Hsum; first [apply Hsgd | apply Hadam] |];
          rewrite E1; cbn [mbind result_bind]; rewrite E2;
          eexists; reflexivity
      end. }
  destruct Hok as (t & Et). exists t. split; [exact Et |].
  assert (Hs : search ∈ searches).
  { each_search Hin; unfold searches; in_list. }
  destruct (searches_rows_index _ _ _ _ Hs Et) as (g' & Eg' & Hlen & _).
  rewrite Eg in Eg'. inversion Eg'; subst g'. rewrite Hlen. exact Hsize.
Qed.

End Outcomes.





Lemma search_returns_table_witness :
  exists t, threelayergridsearch (H := demo_training) hps3 tt = Ok t /\
    Z.of_nat (length t) = 90%Z.
Proof.
  apply (search_returns_table (H := demo_training) threelayergridsearch 4
           hps3 tt).
  - intros; split; discriminate.
  - intros; split; discriminate.
  - unfold coordinates_read. in_list.
  - apply (bool_decide_eq_true_1 (NoDup (keys hps3))). reflexivity.
  - unfold hps3, counts. simpl. repeat constructor; lia.
  - simpl. lia.
Defined.

Section Columns.
Context `{Training}.


End Columns.



End SearchMore.

(** ** The small-session notebook: sessions from file names, the
       training set after the reallocation *)

Module SmallSessionsMore.
Import SmallSessions SmallSessionsFacts.

Lemma append_cons (c : ascii) (a b : string) :
  append (String c a) b = String c (append a b).
Proof. reflexivity. Qed.

Lemma append_nil (b : string) : append EmptyString b = b.
Proof. reflexivity. Qed.

Lemma split_nonempty (sep : ascii) (s : string) : split sep s <> [].
Proof.
  induction s as [|c s IH]; simpl; [discriminate |].
  destruct (decide (c = sep)); [discriminate |].
  destruct (split sep s); discriminate.
Qed.

(** X15: [split] loses nothing: joining the pieces with the separator
    gives the string back, no piece contains the separator, and there is
    one piece more than there are separators (so there is always a first
    piece). *)
Theorem split_join_round_trip (sep : ascii) (s : string) :
  join sep (split sep s) = s /\
  Forall (fun w => occurrences sep w = 0%nat) (split sep s) /\
  length (split sep s) = S (occurrences sep s).
Proof.
  induction s as [|c s (IHj & IHf & IHl)]; simpl.
  - repeat split. repeat constructor.
  - destruct (decide (c = sep)) as [-> | Hne].
    + split; [| split].
      * pose proof (split_nonempty sep s) as Hne.
        simpl. destruct (split sep s) as [|w ws]; [congruence |].
        rewrite append_nil, IHj. reflexivity.
      * constructor; [reflexivity | exact IHf].
      * simpl. rewrite IHl. reflexivity.
    + pose proof (split_nonempty sep s) as Hs.
      destruct (split sep s) as [|w ws]; [congruence |].
      apply Forall_cons in IHf as [Hw Hws].
      split; [| split].
      * rewrite <- IHj. simpl. destruct ws; [reflexivity |].
        rewrite append_cons. reflexivity.
      * constructor; [| exact Hws]. simpl.
        destruct (decide (c = sep)); [congruence | exact Hw].
      * simpl in *. exact IHl.
Qed.

Lemma split_head (sep : ascii) (a b : string) :
  occurrences sep a = 0%nat ->
  hd EmptyString (split sep (append a (String sep b))) = a.
Proof.
  induction a as [|c a IH]; intros Hocc.
  - rewrite append_nil. simpl.
    destruct (decide (sep = sep)); [reflexivity | congruence].
  - simpl in Hocc. rewrite append_cons. simpl.
    destruct (decide (c = sep)) as [-> | Hne]; [discriminate |].
    specialize (IH Hocc).
    pose proof (split_nonempty sep (append a (String sep b))) as Hs.
    destruct (split sep (append a (String sep b))) as [|w ws]; [congruence |].
    simpl in *. rewrite IH. reflexivity.
Qed.

Lemma length_append (a b : string) :
  String.length (append a b) = (String.length a + String.length b)%nat.
Proof.
  induction a as [|c a IH]; [reflexivity |].
  rewrite append_cons. simpl. rewrite IH. reflexivity.
Qed.

Lemma substring_append (a b : string) :
  substring 0 (String.length a) (append a b) = a.
Proof.
  induction a as [|c a IH].
  - rewrite append_nil. destruct b; reflexivity.
  - rewrite append_cons. simpl. rewrite IH. reflexivity.
Qed.

Lemma drop_last_append (n : nat) (a b : string) :
  String.length b = n -> drop_last n (append a b) = a.
Proof.
  intros Hb. unfold drop_last. rewrite length_append, Hb.
  replace (String.length a + n - n)%nat with (String.length a) by lia.
  apply substring_append.
Qed.

Lemma occurrences_append (c : ascii) (a b : string) :
  occurrences c (append a b) = (occurrences c a + occurrences c b)%nat.
Proof.
  induction a as [|c' a IH]; [reflexivity |].
  rewrite append_cons. simpl. rewrite IH. lia.
Qed.

(** X16: a file name made of a session, three more characters, a dash
    and anything else has that session, as long as the part before the
    dash has no dash itself. *)
Theorem get_session_recovers_session (session clip rest : string) :
  occurrences "-" session = 0%nat -> occurrences "-" clip = 0%nat ->
  String.length clip = 3%nat ->
  get_session (append (append session clip) (String "-" rest)) = session.
Proof.
  intros Hs Hc Hl. unfold get_session.
  rewrite split_head by (rewrite occurrences_append; lia).
  apply drop_last_append, Hl.
Qed.

Lemma get_session_recovers_session_witness :
  get_session (append (append "210927_2145" "_03")
                      (String "-" "delighted.wav"))
  = "210927_2145"%string.
Proof.
  apply (get_session_recovers_session "210927_2145" "_03" "delighted.wav");
    reflexivity.
Defined.

Lemma substring_empty (n : nat) (s : string) :
  substring 0 n s = EmptyString <-> n = 0%nat \/ s = EmptyString.
Proof.
  destruct n as [|n]; destruct s as [|c s]; simpl; split; intros E;
    try reflexivity; try discriminate; auto.
  destruct E as [E | E]; discriminate.
Qed.

(** X17: the session is empty exactly when the part of the file name
    before the first dash has at most three characters; all such files
    share the session [""]. *)
Theorem get_session_empty (filename : string) :
  get_session filename = EmptyString <->
  (String.length (hd EmptyString (split "-" filename)) <= 3)%nat.
Proof.
  unfold get_session, drop_last. rewrite substring_empty.
  destruct (hd EmptyString (split "-" filename)) as [|c w]; simpl.
  - split; [lia | auto].
  - split; [intros [E | E]; [lia | discriminate] | intros E; left; lia].
Qed.

Section Frame.
Context {C : Type}.

(** Setting [is_test] to 1 on the rows of the sessions in [small]. *)
Lemma nontest_count_marked (small : gset string) (df : list (df_row C))
    (s : string) :
  nontest_count
    (map (fun r => if bool_decide (Session r ∈ small)
                   then set_is_test 1 r else r) df) s
  = if bool_decide (s ∈ small) then 0%nat else nontest_count df s.
Proof.
  unfold nontest_count. induction df as [|r df IH]; simpl.
  - destruct (bool_decide (s ∈ small)); reflexivity.
  - destruct (bool_decide_reflect (Session r ∈ small)) as [Hin | Hout].
    + rewrite filter_cons_False by (simpl; intros [E _]; discriminate).
      rewrite IH. destruct (bool_decide_reflect (s ∈ small)) as [Hs | Hs];
        [reflexivity |].
      rewrite filter_cons_False; [reflexivity |].
      intros [_ E]. apply Hs. rewrite <- E. exact Hin.
    + destruct (decide (is_test r = 0%Z /\ Session r = s)) as [Hr | Hr].
      * rewrite !filter_cons_True by exact Hr. simpl. rewrite IH.
        destruct Hr as [_ <-].
        destruct (bool_decide_reflect (Session r ∈ small)); [tauto |].
        reflexivity.
      * rewrite !filter_cons_False by exact Hr. exact IH.
Qed.

Lemma nontest_count_reassign (df : list (df_row C)) (s : string) :
  nontest_count (reassign df) s
  = if bool_decide (0 < nontest_count df s < 15)%nat then 0%nat
    else nontest_count df s.
Proof.
  unfold reassign. rewrite nontest_count_marked.
  destruct (bool_decide_reflect (s ∈ small_sessions (session_counts df)))
    as [Hs | Hs]; rewrite small_sessions_spec in Hs;
    destruct (bool_decide_reflect (0 < nontest_count df s < 15)%nat);
    tauto.
Qed.

(** X18: after the reallocation every session that still has a training
    row has at least 15 training rows. *)
Theorem training_sessions_are_populated (csv : list (csv_row C))
    (r : df_row C) :
  r ∈ small_session_split csv -> is_test r = 0%Z ->
  (15 <= nontest_count (small_session_split csv) (Session r))%nat.
Proof.
  unfold small_session_split. set (df := map add_session csv).
  intros Hin Ht. rewrite nontest_count_reassign.
  unfold reassign in Hin. apply list_elem_of_fmap in Hin as (r0 & Er & Hr0).
  destruct (bool_decide_reflect
              (Session r0 ∈ small_sessions (session_counts df)))
    as [Hs | Hs]; subst r; [simpl in Ht; discriminate |].
  rewrite small_sessions_spec in Hs.
  pose proof (nontest_count_pos df r0 Hr0 Ht) as Hpos.
  destruct (bool_decide_reflect (0 < nontest_count df (Session r0) < 15)%nat);
    [tauto | lia].
Qed.

(** X19: the reallocation is idempotent: run on its own output it
    changes nothing. *)
Theorem reassign_idempotent (df : list (df_row C)) :
  reassign (reassign df) = reassign df.
Proof.
  unfold reassign at 1. rewrite <- (map_id (reassign df)) at 2.
  apply map_ext. intros r.
  destruct (bool_decide_reflect
              (Session r ∈ small_sessions (session_counts (reassign df))))
    as [Hs | Hs]; [| reflexivity].
  rewrite small_sessions_spec, nontest_count_reassign in Hs.
  destruct (bool_decide_reflect (0 < nontest_count df (Session r) < 15)%nat);
    lia.
Qed.

End Frame.

Lemma training_sessions_are_populated_witness :
  let csv := replicate 15 (Build_csv_row unit "s1001-a.wav" 0 tt) in
  (15 <= nontest_count (small_session_split csv) "s1")%nat.
Proof.
  intros csv.
  apply (training_sessions_are_populated csv
           (Build_df_row unit "s1001-a.wav" 0 tt "s1")).
  - replace (small_session_split csv)
      with (replicate 15 (Build_df_row unit "s1001-a.wav" 0 tt "s1"))
      by reflexivity.
    apply list_elem_of_here.
  - reflexivity.
Defined.

End SmallSessionsMore.

(** ** The hold-one-session-out loop *)

Module HoldOutMore.
Import HoldOneSessionOut HoldOutFacts.
Open Scope R_scope.

Lemma mask_sum_cons (b : bool) (mask : list bool) :
  mask_sum (b :: mask) = ((if b then 1 else 0) + mask_sum mask)%nat.
Proof.
  unfold mask_sum. destruct b.
  - rewrite filter_cons_True by reflexivity. reflexivity.
  - rewrite filter_cons_False by discriminate. reflexivity.
Qed.











Section Loop.
Context `{Classifier}.




End Loop.


Lemma select_zip {A B} (mask : list bool) (a : list A) (b : list B) :
  select mask (zip a b) = zip (select mask a) (select mask b).
Proof.
  revert a b. induction mask as [|m mask IH]; intros [|x a] [|y b];
    try reflexivity.
  - simpl. destruct m; [| destruct (select mask a)]; reflexivity.
  - simpl. destruct m; simpl; rewrite IH; reflexivity.
Qed.

Lemma select_partition {A} (mask : list bool) (a : list A) :
  length a = length mask ->
  (select mask a ++ select (map negb mask) a) ≡ₚ a.
Proof.
  revert a. induction mask as [|m mask IH]; intros [|x a] Hlen;
    try discriminate; [reflexivity |].
  simpl in Hlen. injection Hlen as Hlen. specialize (IH a Hlen).
  destruct m; simpl.
  - rewrite IH. reflexivity.
  - rewrite <- Permutation_middle, IH. reflexivity.
Qed.

(** X21: a fold splits the samples in two: the validation part is made
    of exactly the samples of the held-out session, the training part of
    the samples of the other sessions, together they are all the samples,
    and the two arrays stay aligned under the mask. *)
Theorem fold_split_is_partition {A} (X_tr : list A)
    (session_tr : list string) (session : string) :
  length X_tr = length session_tr ->
  let mask := session_mask session_tr session in
  select mask session_tr = replicate (mask_sum mask) session /\
  (session ∉ select (map negb mask) session_tr) /\
  (select mask X_tr ++ select (map negb mask) X_tr) ≡ₚ X_tr /\
  select mask (zip X_tr session_tr)
  = zip (select mask X_tr) (select mask session_tr) /\
  select (map negb mask) (zip X_tr session_tr)
  = zip (select (map negb mask) X_tr) (select (map negb mask) session_tr).
Proof.
  intros HX mask. split; [| split; [| split; [| split]]].
  - unfold mask, session_mask. clear.
    induction session_tr as [|s ss IH]; [reflexivity |].
    simpl map. rewrite mask_sum_cons. simpl select.
    destruct (bool_decide_reflect (s = session)) as [-> | Hne]; simpl;
      rewrite IH; reflexivity.
  - unfold mask, session_mask. clear.
    induction session_tr as [|s ss IH]; [intros Hin; inversion Hin |].
    simpl. destruct (bool_decide_reflect (s = session)) as [-> | Hne]; simpl;
      [exact IH |].
    rewrite not_elem_of_cons. split; [congruence | exact IH].
  - apply select_partition. unfold mask, session_mask.
    rewrite length_map. exact HX.
  - apply select_zip.
  - apply select_zip.
Qed.

Lemma fold_split_is_partition_witness :
  let mask := session_mask ["b"; "b"; "a"; "a"]%string "a" in
  select mask ["b"; "b"; "a"; "a"]%string
  = replicate (mask_sum mask) "a"%string /\
  ("a"%string ∉ select (map negb mask) ["b"; "b"; "a"; "a"]%string) /\
  (select mask [1; 2; 3; 4]%nat ++ select (map negb mask) [1; 2; 3; 4]%nat)
    ≡ₚ [1; 2; 3; 4]%nat /\
  select mask (zip [1; 2; 3; 4]%nat ["b"; "b"; "a"; "a"]%string)
  = zip (select mask [1; 2; 3; 4]%nat)
        (select mask ["b"; "b"; "a"; "a"]%string) /\
  select (map negb mask) (zip [1; 2; 3; 4]%nat ["b"; "b"; "a"; "a"]%string)
  = zip (select (map negb mask) [1; 2; 3; 4]%nat)
        (select (map negb mask) ["b"; "b"; "a"; "a"]%string).
Proof.
  apply (fold_split_is_partition [1; 2; 3; 4]%nat
           ["b"; "b"; "a"; "a"]%string "a").
  reflexivity.
Defined.

Section Labels.
Context `{Classifier}.


End Labels.


Section Predictions.
Context `{Classifier}.


End Predictions.


End HoldOutMore.

(** ** Metrics on probabilities, and the feature export *)

Module ExportMore.
Import SmallSessions HuBERTExport SmallSessionsMore.

Lemma value_counts_lookup (l : list string) (s : string) :
  value_counts l !! s
  = if decide (length (filter (fun x => x = s) l) = 0)%nat then None
    else Some (length (filter (fun x => x = s) l)).
Proof.
  induction l as [|x l IH]; [apply lookup_empty |].
  change (value_counts (x :: l))
    with (<[x := S (default 0%nat (value_counts l !! x))]> (value_counts l)).
  destruct (decide (x = s)) as [-> | Hne].
  - rewrite filter_cons_True by reflexivity.
    rewrite lookup_insert_eq, IH. simpl.
    destruct (decide (length (filter (fun x => x = s) l) = 0%nat)) as [E | E];
      simpl; [rewrite E |]; reflexivity.
  - rewrite filter_cons_False by exact Hne.
    rewrite lookup_insert_ne by exact Hne. exact IH.
Qed.

Lemma label_count_map (data_files : list file_row) (l : string) :
  length (filter (fun x => x = l) (map file_Label data_files))
  = label_count data_files l.
Proof.
  unfold label_count. induction data_files as [|r data IH]; [reflexivity |].
  simpl map. destruct (decide (file_Label r = l)) as [E | E].
  - rewrite !filter_cons_True by exact E. simpl. rewrite IH. reflexivity.
  - rewrite !filter_cons_False by exact E. exact IH.
Qed.

Lemma frequent_labels_spec (data_files : list file_row) (l : string) :
  l ∈ frequent_labels (label_counts data_files) <->
  (30 <= label_count data_files l)%nat.
Proof.
  unfold frequent_labels, label_counts. rewrite elem_of_dom. unfold is_Some.
  setoid_rewrite map_lookup_filter_Some. simpl.
  rewrite value_counts_lookup, label_count_map. split.
  - intros (c & Hc & Hge).
    destruct (decide (label_count data_files l = 0%nat)); [discriminate |].
    inversion Hc; subst. exact Hge.
  - intros Hge. exists (label_count data_files l).
    destruct (decide (label_count data_files l = 0%nat)); [lia |].
    split; [reflexivity | exact Hge].
Qed.

(** X24: the training files are, in the order of the directory, the rows
    that are not test rows and whose label labels at least 30 rows of the
    whole directory (test rows count too); each carries the session that
    [get_session] gives for its file name. *)
Theorem training_files_are_frequent_non_test (data_files : list file_row) :
  training_files data_files
  = map (fun r => {| row_of := r;
                     session := get_session (file_Filename r) |})
        (filter (fun r => file_is_test r = 0%Z /\
                          (30 <= label_count data_files (file_Label r))%nat)
                data_files).
Proof.
  unfold training_files, get_session. f_equal.
  apply list_filter_iff. intros r. rewrite frequent_labels_spec. tauto.
Qed.








Import HoldOneSessionOut Metrics.
Open Scope R_scope.

Lemma argmax_from_monotone (f : R -> R) (s : list R) (best : R) (bi i : nat) :
  (forall a b, a < b -> f a < f b) ->
  GridSearch.argmax_from (f best) bi i (map f s)
  = GridSearch.argmax_from best bi i s.
Proof.
  intros Hf. revert best bi i.
  induction s as [|x s IH]; intros best bi i; [reflexivity |].
  simpl. destruct (Rlt_dec best x) as [Hlt | Hge];
    destruct (Rlt_dec (f best) (f x)) as [Hlt' | Hge'].
  - apply IH.
  - exfalso. apply Hge', Hf, Hlt.
  - exfalso. destruct (Rtotal_order x best) as [Hxb | [-> | Hbx]].
    + pose proof (Hf _ _ Hxb). lra.
    + lra.
    + contradiction.
  - apply IH.
Qed.

Lemma argmax_rows_monotone (f : R -> R) (m : list (list R)) :
  (forall a b, a < b -> f a < f b) ->
  argmax_rows (map (map f) m) = argmax_rows m.
Proof.
  intros Hf. unfold argmax_rows.
  induction m as [|row m IH]; [reflexivity |].
  simpl. rewrite IH. destruct row as [|x row]; [reflexivity |].
  simpl. rewrite (argmax_from_monotone f row x 0 1 Hf). reflexivity.
Qed.

(** X26: a metric wrapped by [to_prob] only sees which entry of a row is
    largest: applying a strictly increasing function to all the
    probabilities (a rescaling, a logarithm) does not change its
    value. *)
Theorem to_prob_monotone_invariant {Y W M : Type}
    (metric : Y -> list Z -> option W -> result M) (f : R -> R)
    (y_actual : Y) (y_pred : list (list R)) (sample_weight : option W) :
  (forall a b, a < b -> f a < f b) ->
  to_prob metric y_actual (map (map f) y_pred) sample_weight
  = to_prob metric y_actual y_pred sample_weight.
Proof.
  intros Hf. unfold to_prob. rewrite (argmax_rows_monotone f y_pred Hf).
  reflexivity.
Qed.

Lemma to_prob_monotone_invariant_witness :
  to_prob (fun (_ : list nat) labels (_ : option unit) => Ok labels)
          [1%nat; 0%nat]
          (map (map (fun x => 2 * x)) [[0.2; 0.8]; [0.6; 0.4]]) None
  = to_prob (fun (_ : list nat) labels (_ : option unit) => Ok labels)
            [1%nat; 0%nat] [[0.2; 0.8]; [0.6; 0.4]] None.
Proof.
  apply (to_prob_monotone_invariant
           (fun (_ : list nat) labels (_ : option unit) => Ok labels)
           (fun x => 2 * x)).
  intros a b Hab. lra.
Defined.

End ExportMore.
